(** * Lead-generation pipeline (app.py): a shallow embedding and its properties

    Python [str] values are Rocq strings; a character is an [ascii] value read
    as a code point below 256.  Python integers are [Z].  A call that may raise
    returns a [result]; a function whose body is wrapped in [try/except] and
    therefore never raises returns a plain value. *)

From Stdlib Require Import ZArith Lia Ascii String.
From stdpp Require Import base decidable list strings gmap.

Local Open Scope string_scope.
Local Open Scope Z_scope.

#[local] Set Warnings "-clear-no-such-hyp".

(** ** Exceptions *)

Inductive exn : Type :=
| RequestException   (* raised by requests.get: timeout, connection error, ... *)
| JSONDecodeError    (* raised by res.json() *)
| ValueError
| NameError (name : string)
| LLMError.          (* raised by llm.invoke *)

Inductive result (A : Type) : Type :=
| Ok (a : A)
| Raise (e : exn).
Arguments Ok {A} a.
Arguments Raise {A} e.

#[global] Instance result_ret : MRet result := λ A a, Ok a.
#[global] Instance result_bind : MBind result := λ A B k m,
  match m with
  | Ok a => k a
  | Raise e => Raise e
  end.

(** [try: m except: d] *)
Definition try_except {A : Type} (m : result A) (d : A) : A :=
  match m with
  | Ok a => a
  | Raise _ => d
  end.

(** ** Python string operations *)

Module Str.

Definition code (c : ascii) : Z := Z.of_N (Ascii.N_of_ascii c).
Definition chr (z : Z) : ascii := Ascii.ascii_of_N (Z.to_N z).

Definition in_range (lo hi : Z) (c : ascii) : bool :=
  (lo <=? code c) && (code c <=? hi).

Definition is_upper (c : ascii) : bool := in_range 65 90 c.
Definition is_lower (c : ascii) : bool := in_range 97 122 c.
Definition is_alpha (c : ascii) : bool := is_upper c || is_lower c.
(** [\d] *)
Definition is_digit (c : ascii) : bool := in_range 48 57 c.
Definition is_alnum (c : ascii) : bool := is_alpha c || is_digit c.
(** [\s], and what [str.strip()] removes *)
Definition is_space (c : ascii) : bool :=
  in_range 9 13 c || in_range 28 32 c || (code c =? 133) || (code c =? 160).

Definition is_char (x : ascii) (c : ascii) : bool := Ascii.eqb x c.

(** [c.lower()] *)
Definition lower_char (c : ascii) : ascii :=
  if is_upper c then chr (code c + 32)
  else if in_range 192 222 c && negb (code c =? 215) then chr (code c + 32)
  else c.

(** [s.lower()] *)
Fixpoint lower (s : string) : string :=
  match s with
  | EmptyString => EmptyString
  | String c s' => String (lower_char c) (lower s')
  end.

(** [s.startswith(p)] *)
Fixpoint startswith (p s : string) : bool :=
  match p, s with
  | EmptyString, _ => true
  | String a p', String b s' => Ascii.eqb a b && startswith p' s'
  | String _ _, EmptyString => false
  end.

(** [sub in s] *)
Fixpoint contains (sub s : string) : bool :=
  startswith sub s ||
  match s with
  | EmptyString => false
  | String _ s' => contains sub s'
  end.

(** [s[n:]] *)
Fixpoint drop (n : nat) (s : string) : string :=
  match n, s with
  | O, _ => s
  | S n', String _ s' => drop n' s'
  | S _, EmptyString => EmptyString
  end.

(** [s.replace(old, "")] for a non-empty [old]: the occurrences are removed
    left to right without overlap.  [skip] counts the characters of the
    occurrence found last that are still to be dropped. *)
Fixpoint remove_from (old : string) (skip : nat) (s : string) : string :=
  match s with
  | EmptyString => EmptyString
  | String c s' =>
      match skip with
      | S k => remove_from old k s'
      | O => if startswith old s
             then remove_from old (Nat.pred (String.length old)) s'
             else String c (remove_from old O s')
      end
  end.

Definition remove_all (old s : string) : string := remove_from old O s.

(** the longest prefix of [s] whose characters satisfy [p], and the rest *)
Fixpoint span (p : ascii → bool) (s : string) : string * string :=
  match s with
  | EmptyString => (EmptyString, EmptyString)
  | String c s' =>
      if p c then let '(a, b) := span p s' in (String c a, b)
      else (EmptyString, s)
  end.

Fixpoint filter (p : ascii → bool) (s : string) : string :=
  match s with
  | EmptyString => EmptyString
  | String c s' => if p c then String c (filter p s') else filter p s'
  end.

Fixpoint forallb (p : ascii → bool) (s : string) : bool :=
  match s with
  | EmptyString => true
  | String c s' => p c && forallb p s'
  end.

Fixpoint rev_onto (s acc : string) : string :=
  match s with
  | EmptyString => acc
  | String c s' => rev_onto s' (String c acc)
  end.
Definition rev (s : string) : string := rev_onto s EmptyString.

(** [s.partition(sep)] for a one-character separator: the text before the
    first separator, whether there is one, and the text after it *)
Definition partition (sep : ascii) (s : string) : string * bool * string :=
  let '(a, b) := span (fun c => negb (Ascii.eqb c sep)) s in
  match b with
  | EmptyString => (a, false, EmptyString)
  | String _ b' => (a, true, b')
  end.

(** [s.lstrip()], [s.strip()] *)
Definition lstrip (s : string) : string := snd (span is_space s).
Definition strip (s : string) : string := rev (lstrip (rev (lstrip s))).

(** [s.split(sep)] for a one-character separator: never an empty list *)
Fixpoint split (sep : ascii) (s : string) : list string :=
  match s with
  | EmptyString => [EmptyString]
  | String c s' =>
      if Ascii.eqb c sep then EmptyString :: split sep s'
      else match split sep s' with
           | [] => [String c EmptyString]
           | w :: ws => String c w :: ws
           end
  end.

(** [int(s)] for a non-empty string of decimal digits: the conversion
    refuses a string of more than [sys.int_info.default_max_str_digits]
    digits, leading zeros counted, with [ValueError]. *)
Definition digit_val (c : ascii) : Z := code c - 48.
Fixpoint int_acc (acc : Z) (s : string) : Z :=
  match s with
  | EmptyString => acc
  | String c s' => int_acc (10 * acc + digit_val c) s'
  end.
Definition int_max_str_digits : Z := 4300.
Definition int (s : string) : result Z :=
  if int_max_str_digits <? Z.of_nat (String.length s) then Raise ValueError
  else Ok (int_acc 0 s).

(** [sep.join(xs)] *)
Fixpoint join (sep : string) (xs : list string) : string :=
  match xs with
  | [] => EmptyString
  | [x] => x
  | x :: xs' => x +:+ sep +:+ join sep xs'
  end.

(** truth value of a string: [bool(s)] *)
Definition truthy (s : string) : bool :=
  match s with
  | EmptyString => false
  | String _ _ => true
  end.

End Str.

(** ** Constants *)

Definition FREE_EMAIL_DOMAINS : list string :=
  ["gmail.com"; "yahoo.com"; "outlook.com"; "hotmail.com"; "aol.com"; "icloud.com"].

Definition BLOCKED_DOMAINS : list string :=
  ["yelp"; "clutch"; "justdial"; "indiamart"; "yellowpages"; "facebook.com";
   "instagram.com"; "twitter.com"].

(** [x in xs] for a list of strings *)
Definition mem (x : string) (xs : list string) : bool :=
  existsb (String.eqb x) xs.

(** ** urllib.parse.urlparse, as far as [netloc] goes

    After [urlsplit] of CPython 3.11 to 3.13 with its security fixes.  Leading
    control characters and spaces are stripped and tabs and newlines removed.
    The scheme is split off at the first colon when everything before it is a
    scheme character and the first character is a letter; a network location
    is present only after a leading [//] and runs to the first of [/ ? #].
    Square brackets must be balanced and must hold an IPv6 or an IPvFuture
    address, else [ValueError] is raised.  The check of a non-ASCII network
    location under NFKC normalisation never raises for code points below 256,
    none of which normalises to a text with one of [/ ? # @ :]. *)

Module Url.

Definition is_hex (c : ascii) : bool :=
  Str.is_digit c || Str.in_range 65 70 c || Str.in_range 97 102 c.

(** [ipaddress.IPv4Address._parse_octet] accepts the octet *)
Definition octet_ok (o : string) : bool :=
  Str.truthy o && Str.forallb Str.is_digit o
  && (String.length o <=? 3)%nat
  && negb (negb (String.eqb o "0") && Str.startswith "0" o)
  && (Str.int_acc 0 o <=? 255).

(** [ipaddress.IPv4Address(a)] succeeds *)
Definition ipv4_ok (a : string) : bool :=
  negb (Str.contains "/" a) && Str.truthy a
  && let octets := Str.split "." a in
     (length octets =? 4)%nat && List.forallb octet_ok octets.

(** [ipaddress.IPv6Address._parse_hextet] accepts the group *)
Definition hextet_ok (h : string) : bool :=
  Str.truthy h && Str.forallb is_hex h && (String.length h <=? 4)%nat.

(** [ipaddress.IPv6Address(address)] succeeds *)
Definition ipv6_ok (address : string) : bool :=
  negb (Str.contains "/" address)
  && let '(addr, sep, scope_id) := Str.partition "%" address in
     (negb sep || (Str.truthy scope_id && negb (Str.contains "%" scope_id)))
     && Str.truthy addr
     && let parts := Str.split ":" addr in
        (3 <=? length parts)%nat
        && let v4 := Str.contains "." (List.last parts "") in
           (negb v4 || ipv4_ok (List.last parts ""))
           (* an IPv4 suffix is replaced by its two groups of hex digits *)
           && let parts := if v4 then (removelast parts ++ ["0"; "0"])%list else parts in
              let n := length parts in
              (n <=? 9)%nat
              && match List.filter (fun i => negb (Str.truthy (nth i parts "")))
                         (seq 1 (n - 2)) with
                 | [] => (n =? 8)%nat && List.forallb hextet_ok parts
                 | [skip_index] =>
                     let head_empty := negb (Str.truthy (nth 0 parts "")) in
                     let tail_empty := negb (Str.truthy (List.last parts "")) in
                     let parts_hi := if head_empty then (skip_index - 1)%nat else skip_index in
                     let parts_lo := if tail_empty then (n - skip_index - 2)%nat
                                     else (n - skip_index - 1)%nat in
                     (negb head_empty || (parts_hi =? 0)%nat)
                     && (negb tail_empty || (parts_lo =? 0)%nat)
                     && (parts_hi + parts_lo <=? 7)%nat
                     && List.forallb hextet_ok (firstn parts_hi parts)
                     && List.forallb hextet_ok (skipn (n - parts_lo) parts)
                 | _ => false
                 end.

(** [_check_bracketed_host] does not raise *)
Definition bracketed_host_ok (hostname : string) : bool :=
  match hostname with
  | String "v" rest =>
      (* [\Av[a-fA-F0-9]+\..+\Z] *)
      let '(hex, r) := Str.span is_hex rest in
      match r with
      | String "." tl =>
          Str.truthy hex && Str.truthy tl
          && Str.forallb (fun c => negb (Str.code c =? 10)) tl
      | _ => false
      end
  | _ => if ipv4_ok hostname then false else ipv6_ok hostname
  end.

(** [_check_bracketed_netloc] does not raise *)
Definition bracketed_netloc_ok (n : string) : bool :=
  let hostname_and_port := List.last (Str.split "@" n) "" in
  let '(before_bracket, have_open_br, bracketed) := Str.partition "[" hostname_and_port in
  if have_open_br then
    if Str.truthy before_bracket then false
    else
      let '(hostname, _, port) := Str.partition "]" bracketed in
      if Str.truthy port && negb (Str.startswith ":" port) then false
      else bracketed_host_ok hostname
  else
    let '(hostname, _, _) := Str.partition ":" hostname_and_port in
    bracketed_host_ok hostname.

Definition is_scheme_char (c : ascii) : bool :=
  Str.is_alnum c || Str.is_char "+"%char c || Str.is_char "-"%char c || Str.is_char "."%char c.

Definition is_delim (c : ascii) : bool :=
  Str.is_char "/"%char c || Str.is_char "?"%char c || Str.is_char "#"%char c.

(** [url.lstrip(_WHATWG_C0_CONTROL_OR_SPACE)], then the removal of the
    characters of [_UNSAFE_URL_BYTES_TO_REMOVE] *)
Definition clean (url : string) : string :=
  let url := snd (Str.span (fun c => Str.code c <=? 32) url) in
  Str.filter (fun c => negb ((Str.code c =? 9) || (Str.code c =? 13) || (Str.code c =? 10))) url.

(** the url after its scheme, when it has one *)
Definition after_scheme (url : string) : string :=
  let '(pre, rest) := Str.span (fun c => negb (Str.is_char ":"%char c)) url in
  match pre, rest with
  | String c0 _, String _ rest' =>
      if Str.is_alpha c0 && Str.forallb is_scheme_char pre then rest' else url
  | _, _ => url
  end.

Definition netloc (url : string) : result string :=
  let url := after_scheme (clean url) in
  if Str.startswith "//" url then
    let n := fst (Str.span (fun c => negb (is_delim c)) (Str.drop 2 url)) in
    let lb := Str.contains "[" n in
    let rb := Str.contains "]" n in
    if (lb && negb rb) || (rb && negb lb) then Raise ValueError
    else if lb && rb && negb (bracketed_netloc_ok n) then Raise ValueError
    else Ok n
  else Ok EmptyString.

End Url.

(** ** Helper functions *)

Definition get_domain (url : string) : string :=
  try_except (n ← Url.netloc url; Ok (Str.remove_all "www." n)) "".

(** A Python value that is a [bool] or a [str]: [x and y] returns [x] itself
    when [x] is falsy. *)
Inductive pyval : Type :=
| PyBool (b : bool)
| PyStr (s : string).

Definition py_truthy (v : pyval) : bool :=
  match v with
  | PyBool b => b
  | PyStr s => Str.truthy s
  end.

(** [email.split("@")[-1].lower()] *)
Definition email_domain (email : string) : string :=
  Str.lower (List.last (Str.split "@"%char email) EmptyString).

Definition is_company_email (email website : string) : pyval :=
  let domain := get_domain website in
  let email_domain := email_domain email in
  if mem email_domain FREE_EMAIL_DOMAINS then PyBool false
  else if Str.truthy domain then PyBool (Str.contains domain email_domain)
  else PyStr domain.

Definition is_valid_phone (phone : string) : bool :=
  let digits := Str.filter Str.is_digit phone in
  let n := Z.of_nat (String.length digits) in
  (10 <=? n) && (n <=? 15).

(** ** The regular expressions

    Each pattern is a sequence of greedy runs over character classes that are
    disjoint from what follows them, so giving characters back never helps and
    a match at a position is decided by the longest runs. *)

Module Re.

(** [re.search]: the match at the leftmost position that has one *)
Fixpoint search {A : Type} (m : string → option A) (s : string) : option A :=
  match m s with
  | Some x => Some x
  | None =>
      match s with
      | EmptyString => None
      | String _ s' => search m s'
      end
  end.

(** [re.findall] for a pattern without groups that matches no empty string:
    the matches left to right, each search resuming where the last match
    ended. *)
Fixpoint findall_from (m : string → option string) (skip : nat) (s : string)
  : list string :=
  match s with
  | EmptyString => []
  | String _ s' =>
      match skip with
      | S k => findall_from m k s'
      | O =>
          match m s with
          | Some x => x :: findall_from m (Nat.pred (String.length x)) s'
          | None => findall_from m O s'
          end
      end
  end.

Definition findall (m : string → option string) (s : string) : list string :=
  findall_from m O s.

Definition nonempty (s : string) : bool := Str.truthy s.

(** [Lead Score:\s*(\d+)] at the start of [s]: group 1 *)
Definition lead_score_at (s : string) : option string :=
  if Str.startswith "Lead Score:" s then
    let rest := snd (Str.span Str.is_space (Str.drop 11 s)) in
    let digits := fst (Str.span Str.is_digit rest) in
    if nonempty digits then Some digits else None
  else None.

(** [(\d+)\+?\s*employees] at the start of [s]: group 1 *)
Definition employees_at (s : string) : option string :=
  let '(digits, rest) := Str.span Str.is_digit s in
  if nonempty digits then
    let rest := match rest with
                | String "+" r => r
                | _ => rest
                end in
    let rest := snd (Str.span Str.is_space rest) in
    if Str.startswith "employees" rest then Some digits else None
  else None.

Definition is_local (c : ascii) : bool :=
  Str.is_alnum c || Str.is_char "_" c || Str.is_char "." c
  || Str.is_char "+" c || Str.is_char "-" c.
Definition is_label (c : ascii) : bool := Str.is_alnum c || Str.is_char "-" c.
Definition is_tail (c : ascii) : bool :=
  Str.is_alnum c || Str.is_char "-" c || Str.is_char "." c.

(** EMAIL_REGEX = [[a-zA-Z0-9_.+-]+@[a-zA-Z0-9-]+\.[a-zA-Z0-9-.]+] *)
Definition email_at (s : string) : option string :=
  let '(loc, r1) := Str.span is_local s in
  match r1 with
  | String "@" r2 =>
      let '(lab, r3) := Str.span is_label r2 in
      match r3 with
      | String "." r4 =>
          let tl := fst (Str.span is_tail r4) in
          if nonempty loc && nonempty lab && nonempty tl
          then Some (loc +:+ "@" +:+ lab +:+ "." +:+ tl)
          else None
      | _ => None
      end
  | _ => None
  end.

Definition is_phone_char (c : ascii) : bool :=
  Str.is_digit c || Str.is_space c || Str.is_char "-" c.

(** [s[:n]] *)
Fixpoint take (n : nat) (s : string) : string :=
  match n, s with
  | S n', String c s' => String c (take n' s')
  | _, _ => EmptyString
  end.

(** PHONE_REGEX = [\+?\d[\d\s\-]{7,15}] *)
Definition phone_at (s : string) : option string :=
  let '(plus, r) := match s with
                    | String "+" r => ("+", r)
                    | _ => ("", s)
                    end in
  match r with
  | String d r' =>
      let run := take 15 (fst (Str.span is_phone_char r')) in
      if Str.is_digit d && (7 <=? String.length run)%nat
      then Some (plus +:+ String d run)
      else None
  | EmptyString => None
  end.

End Re.

(** ** Text extractors *)

(** [any(kw in text for kw in keywords)] *)
Definition any_in (keywords : list string) (text : string) : bool :=
  existsb (fun kw => Str.contains kw text) keywords.

Definition size_indicators : list (string * list string) :=
  [("enterprise", ["fortune 500"; "global"; "worldwide"; "international"]);
   ("medium", ["team of"; "employees"; "staff members"]);
   ("small", ["family owned"; "local"; "boutique"])].

(** [s.capitalize()], on the keys of [size_indicators] *)
Definition upper_char (c : ascii) : ascii :=
  if Str.is_lower c then Str.chr (Str.code c - 32) else c.
Definition capitalize (s : string) : string :=
  match s with
  | EmptyString => EmptyString
  | String c s' => String (upper_char c) (Str.lower s')
  end.

Definition extract_company_size (text : string) : result string :=
  let text_lower := Str.lower text in
  match Re.search Re.employees_at text_lower with
  | Some g =>
      count ← Str.int g;
      if 500 <? count then Ok "Enterprise (500+)"
      else if 50 <? count then Ok "Medium (50-500)"
      else Ok "Small (1-50)"
  | None =>
      match List.find (fun '(_, keywords) => any_in keywords text_lower) size_indicators with
      | Some (size, _) => Ok (capitalize size)
      | None => Ok "Unknown"
      end
  end.

Definition technologies : list (string * list string) :=
  [("WordPress", ["wp-content"; "wordpress"]);
   ("Shopify", ["shopify"; "myshopify"]);
   ("React", ["react"; "reactjs"]);
   ("Angular", ["angular"; "angularjs"]);
   ("Salesforce", ["salesforce"]);
   ("HubSpot", ["hubspot"]);
   ("Google Analytics", ["google-analytics"; "gtag"]);
   ("Mailchimp", ["mailchimp"]);
   ("Stripe", ["stripe"]);
   ("PayPal", ["paypal"])].

Definition detect_technologies (text : string) : string :=
  let text_lower := Str.lower text in
  let tech_stack :=
    List.map fst (List.filter (fun '(_, keywords) => any_in keywords text_lower) technologies) in
  match tech_stack with
  | [] => "None detected"
  | _ => Str.join ", " tech_stack
  end.

(** ** The outside world

    What the external services answer during one run.  A reply of the search
    API is what [requests.get(...).json().get("organic_results", [])] yields:
    the list of hits, or the exception raised on the way.  A field of a hit
    that is absent reads as the empty string, as [r.get(key, "")] does; the
    fields that are present are strings, as the API documents them. *)

Record SearchResult : Type := {
  title : string;
  link : string;
  snippet : string
}.

Record SerpParams : Type := {
  q : string;
  num : Z;
  start : option Z
}.

(** the object under the key [data] of a verification reply *)
Record HunterData : Type := {
  h_status : option string;
  h_score : option Z
}.

Record World : Type := {
  (** search API *)
  serpapi : SerpParams → result (list SearchResult);
  (** [requests.get(url).text] *)
  http_text : string → result string;
  (** verification API: [None] when the reply has no [data], or an empty one *)
  hunter : string → result (option HunterData);
  (** [llm.invoke(prompt).content] *)
  llm_invoke : string → result string;
  (** [BeautifulSoup(html, "html.parser").get_text(separator=" ")] of the bs4
      library *)
  bs4_get_text : string → string;
  (** [datetime.now().strftime(...)] while candidate [idx] is processed *)
  now : nat → string
}.

(** [list(set(xs))]: the order in which a set of strings is iterated is fixed
    by the interpreter's hash seed, which changes from run to run. *)
Definition SetOrder : Type := list string → list string.

(** The names bound at module level by the import statements of app.py. *)
Definition app_imports : list string :=
  ["st"; "pd"; "requests"; "re"; "BytesIO"; "urlparse"; "datetime"; "json";
   "ChatGroq"; "PromptTemplate"].

(** Looking up a global name that the function body uses. *)
Definition global_BeautifulSoup (imports : list string) (w : World)
  : result (string → string) :=
  if mem "BeautifulSoup" imports then Ok (bs4_get_text w)
  else Raise (NameError "BeautifulSoup").

Definition dq : string := String (Str.chr 34) EmptyString.
Definition nl : string := String (Str.chr 10) EmptyString.

(** ** Configuration (the sidebar) *)

Record Config : Type := {
  hunter_api_key : string;
  max_leads : Z;
  min_score : Z;
  search_pages : nat;
  exclude_domains : string;
  meeting_link : string;
  industry : string;
  location : string
}.

Section Pipeline.

Variable imports : list string.
Variable w : World.
Variable order : SetOrder.
Variable cfg : Config.

(** ** External signal fetchers *)

Definition verify_email_hunter (email : string) : string * Z :=
  if negb (Str.truthy (hunter_api_key cfg)) then ("Not Verified", 0)
  else
    try_except
      (data ← hunter w email;
       match data with
       | Some d => Ok (default "unknown" (h_status d), default 0 (h_score d))
       | None => Ok ("Not Verified", 0)
       end)
      ("Not Verified", 0).

Definition signals_of (r : SearchResult) : list string :=
  let snippet := Str.lower (snippet r) in
  let title := Str.lower (title r) in
  (if Str.contains "hiring" snippet || Str.contains "hiring" title
   then ["Currently Hiring"] else []) ++
  (if Str.contains "funding" snippet || Str.contains "funding" title
   then ["Recently Funded"] else []) ++
  (if Str.contains "expansion" snippet || Str.contains "expansion" title
   then ["Expanding"] else []).

Definition check_buying_signals (company location : string) : string :=
  let signals :=
    try_except
      (rs ← serpapi w {| q := dq +:+ company +:+ dq +:+ " hiring OR funding OR expansion";
                          num := 5; start := None |};
       Ok (List.flat_map signals_of rs))
      [] in
  match signals with
  | [] => "None"
  | _ => Str.join ", " signals
  end.

(** the dict [social], keys "LinkedIn", "Twitter", "Facebook" *)
Record Social : Type := {
  social_LinkedIn : string;
  social_Twitter : string;
  social_Facebook : string
}.

Definition social_step (social : Social) (r : SearchResult) : Social :=
  let link := link r in
  if Str.contains "linkedin.com/company" link && negb (Str.truthy (social_LinkedIn social))
  then {| social_LinkedIn := link; social_Twitter := social_Twitter social; social_Facebook := social_Facebook social |}
  else if Str.contains "twitter.com" link && negb (Str.truthy (social_Twitter social))
  then {| social_LinkedIn := social_LinkedIn social; social_Twitter := link; social_Facebook := social_Facebook social |}
  else if Str.contains "facebook.com" link && negb (Str.truthy (social_Facebook social))
  then {| social_LinkedIn := social_LinkedIn social; social_Twitter := social_Twitter social; social_Facebook := link |}
  else social.

Definition get_social_presence (company : string) : Social :=
  let social := {| social_LinkedIn := ""; social_Twitter := ""; social_Facebook := "" |} in
  try_except
    (rs ← serpapi w {| q := dq +:+ company +:+ dq
                              +:+ " site:linkedin.com OR site:twitter.com OR site:facebook.com";
                        num := 5; start := None |};
     Ok (List.fold_left social_step rs social))
    social.

(** [for page in range(pages)]: the pages [first], [first + 1], ... *)
Fixpoint search_pages_from (industry location : string) (pages : nat) (first : Z)
  : result (list SearchResult) :=
  match pages with
  | O => Ok []
  | S pages' =>
      rs ← serpapi w {| q := industry +:+ " in " +:+ location;
                         num := 10; start := Some (first * 10) |};
      rest ← search_pages_from industry location pages' (first + 1);
      Ok (rs ++ rest)%list
  end.

Definition search_businesses (industry location : string) (pages : nat)
  : result (list SearchResult) :=
  search_pages_from industry location pages 0.

Definition scrape_website (url : string)
  : list string * list string * string * string * string :=
  try_except
    (html ← http_text w url;
     BeautifulSoup ← global_BeautifulSoup imports w;
     let text := BeautifulSoup html in
     let emails := order (Re.findall Re.email_at text) in
     let phones := order (Re.findall Re.phone_at text) in
     company_size ← extract_company_size text;
     let tech_stack := detect_technologies text in
     Ok (emails, phones, text, company_size, tech_stack))
    ([], [], "", "Unknown", "None").

Definition founder_keywords : list string := ["founder"; "ceo"; "co-founder"; "owner"].

(** the body of the loop of [get_linkedin_info], on the pair
    [(linkedin, founder)] *)
Definition linkedin_step (acc : string * string) (r : SearchResult) : string * string :=
  let '(linkedin, founder) := acc in
  let linkedin := if Str.contains "linkedin.com/company" (link r) then link r else linkedin in
  let founder := if existsb (fun k => Str.contains k (Str.lower (title r))) founder_keywords
                 then title r else founder in
  (linkedin, founder).

Definition linkedin_of (rs : list SearchResult) : string * string :=
  List.fold_left linkedin_step rs ("", "").

Definition get_linkedin_info (company location : string) : result (string * string) :=
  rs ← serpapi w {| q := dq +:+ company +:+ dq +:+ " " +:+ location +:+ " LinkedIn";
                     num := 5; start := None |};
  Ok (linkedin_of rs).

(** ** Prompts and language-model calls *)

Definition lines (ls : list string) : string := Str.join nl ls.

Definition score_lead_enhanced (company_info industry buying_signals : string)
  : result string :=
  llm_invoke w (lines
    [""; "Analyze this B2B lead and provide a detailed assessment.";
     "";
     "Company Info:";
     company_info;
     "";
     "Industry: " +:+ industry;
     "Buying Signals: " +:+ buying_signals;
     "";
     "Provide your analysis in this exact format:";
     "";
     "Lead Quality: [Hot/Warm/Cold]";
     "Lead Score: [1-10]";
     "Pain Point: [One specific pain point]";
     "Best Contact Time: [Suggested day and time]";
     "Personalization Hook: [One unique fact about the company to use in outreach]";
     ""]).

Definition generate_email_variations (company pain_point meeting_link : string)
  : result string :=
  llm_invoke w (lines
    [""; "Write 2 different cold email variations for A/B testing.";
     "";
     "Company: " +:+ company;
     "Pain Point: " +:+ pain_point;
     "CTA: " +:+ meeting_link;
     "";
     "Format:";
     "EMAIL A:";
     "[Subject line]";
     "[Body under 120 words]";
     "";
     "EMAIL B:";
     "[Different subject line]";
     "[Different body under 120 words]";
     ""]).

Definition generate_follow_up_sequence (company pain_point : string) : result string :=
  llm_invoke w (lines
    [""; "Create a 3-email follow-up sequence.";
     "";
     "Company: " +:+ company;
     "Pain Point: " +:+ pain_point;
     "";
     "Format:";
     "FOLLOW-UP 1 (Day 3):";
     "[Subject]";
     "[Body - 80 words max]";
     "";
     "FOLLOW-UP 2 (Day 7):";
     "[Subject]";
     "[Body - 80 words max]";
     "";
     "FOLLOW-UP 3 (Day 14):";
     "[Subject]";
     "[Body - 80 words max]";
     ""]).

Definition generate_multichannel_outreach (company pain_point meeting_link : string)
  : result string :=
  llm_invoke w (lines
    [""; "Create outreach messages for multiple channels.";
     "";
     "Company: " +:+ company;
     "Pain Point: " +:+ pain_point;
     "";
     "Generate:";
     "1. WhatsApp Message (50 words)";
     "2. SMS Message (25 words)";
     "3. LinkedIn Message (80 words)";
     "";
     "Meeting Link: " +:+ meeting_link;
     ""]).

(** ** Lead generation *)

Record Lead : Type := {
  Company : string;
  Website : string;
  Email : string;
  Email_Status : string;
  Email_Score : Z;
  Phone : string;
  Company_Size : string;
  Technology_Stack : string;
  LinkedIn : string;
  Twitter : string;
  Facebook : string;
  Key_Contact : string;
  Buying_Signals : string;
  Lead_Score : Z;
  Lead_Analysis : string;
  Email_Variations : string;
  Follow_up_Sequence : string;
  Multi_channel_Outreach : string;
  Meeting_Link : string;
  Generated_Date : string
}.

(** [next((x for x in xs if p(x)), "")] *)
Definition next_or_empty (p : string → bool) (xs : list string) : string :=
  default "" (List.find p xs).

(** [excluded] *)
Definition excluded : gset string :=
  list_to_set
    (List.map (fun line => Str.lower (Str.strip line))
       (List.filter (fun line => Str.truthy (Str.strip line))
          (Str.split (Str.chr 10) (exclude_domains cfg)))).

(** [ai_score]: [int] of group 1 of the first match of [Lead Score:\s*(\d+)],
    or 5 without a match *)
Definition ai_score_of (analysis : string) : result Z :=
  match Re.search Re.lead_score_at analysis with
  | Some g => Str.int g
  | None => Ok 5
  end.

Definition hybrid_score_of (valid_email valid_phone buying_signals linkedin : string)
  (ai_score : Z) : Z :=
  let hybrid_score := 0 in
  let hybrid_score := if Str.truthy valid_email then hybrid_score + 2 else hybrid_score in
  let hybrid_score := if Str.truthy valid_phone then hybrid_score + 2 else hybrid_score in
  let hybrid_score := if negb (String.eqb buying_signals "None")
                      then hybrid_score + 2 else hybrid_score in
  let hybrid_score := if Str.truthy linkedin then hybrid_score + 1 else hybrid_score in
  hybrid_score + Z.min ai_score 3.

Definition lead_score_of (valid_email valid_phone buying_signals linkedin : string)
  (ai_score : Z) : Z :=
  Z.min (hybrid_score_of valid_email valid_phone buying_signals linkedin ai_score) 10.

(** What became of a candidate that the loop looked at. *)
Inductive Outcome : Type :=
| NoDomain               (* [not domain] *)
| Duplicate              (* [domain in seen_domains] *)
| Blocked
| Excluded
| NoContact              (* neither a company email nor a valid phone *)
| BelowMinimum (lead_score : Z)
| Accepted (lead : Lead).

Record State : Type := {
  leads : list Lead;
  seen_domains : gset string
}.

(** one pass through the body of the loop, for the hit [r] at index [idx] *)
Definition process (st : State) (idx : nat) (r : SearchResult) : result (State * Outcome) :=
  let company := title r in
  let website := link r in
  let domain := get_domain website in
  if negb (Str.truthy domain) || bool_decide (domain ∈ seen_domains st)
  then Ok (st, if Str.truthy domain then Duplicate else NoDomain)
  else if any_in BLOCKED_DOMAINS (Str.lower website) then Ok (st, Blocked)
  else if bool_decide (domain ∈ excluded) then Ok (st, Excluded)
  else
    let st := {| leads := leads st; seen_domains := seen_domains st ∪ {[domain]} |} in
    let '(emails, phones, page_text, company_size, tech_stack) := scrape_website website in
    let valid_email :=
      next_or_empty (fun e => py_truthy (is_company_email e website)) emails in
    let valid_phone := next_or_empty is_valid_phone phones in
    if negb (Str.truthy valid_email) && negb (Str.truthy valid_phone)
    then Ok (st, NoContact)
    else
      let '(email_status, email_score) :=
        if Str.truthy valid_email && Str.truthy (hunter_api_key cfg)
        then verify_email_hunter valid_email
        else ("Not Verified", 0) in
      '(linkedin, founder) ← get_linkedin_info company (location cfg);
      let buying_signals := check_buying_signals company (location cfg) in
      let social := get_social_presence company in
      let company_info := lines
        [""; "Company: " +:+ company;
         "Website: " +:+ website;
         "Email: " +:+ valid_email +:+ " (Status: " +:+ email_status +:+ ")";
         "Phone: " +:+ valid_phone;
         "Size: " +:+ company_size;
         "Tech Stack: " +:+ tech_stack;
         "LinkedIn: " +:+ linkedin;
         "Key Contact: " +:+ founder;
         "Buying Signals: " +:+ buying_signals;
         ""] in
      analysis ← score_lead_enhanced company_info (industry cfg) buying_signals;
      ai_score ← ai_score_of analysis;
      let lead_score := lead_score_of valid_email valid_phone buying_signals linkedin ai_score in
      if lead_score <? min_score cfg then Ok (st, BelowMinimum lead_score)
      else
        email_variations ← generate_email_variations company analysis (meeting_link cfg);
        follow_ups ← generate_follow_up_sequence company analysis;
        multichannel ← generate_multichannel_outreach company analysis (meeting_link cfg);
        let lead := {|
          Company := company;
          Website := website;
          Email := valid_email;
          Email_Status := email_status;
          Email_Score := email_score;
          Phone := valid_phone;
          Company_Size := company_size;
          Technology_Stack := tech_stack;
          LinkedIn := if Str.truthy linkedin then linkedin else social_LinkedIn social;
          Twitter := social_Twitter social;
          Facebook := social_Facebook social;
          Key_Contact := founder;
          Buying_Signals := buying_signals;
          Lead_Score := lead_score;
          Lead_Analysis := analysis;
          Email_Variations := email_variations;
          Follow_up_Sequence := follow_ups;
          Multi_channel_Outreach := multichannel;
          Meeting_Link := meeting_link cfg;
          Generated_Date := now w idx
        |} in
        Ok ({| leads := leads st ++ [lead]; seen_domains := seen_domains st |},
            Accepted lead).

(** [for idx, r in enumerate(results)], with the outcomes of the hits that
    the loop looked at before it ended or left at [break] *)
Fixpoint loop (st : State) (idx : nat) (results : list SearchResult)
  : result (State * list Outcome) :=
  match results with
  | [] => Ok (st, [])
  | r :: results' =>
      if max_leads cfg <=? Z.of_nat (length (leads st)) then Ok (st, [])
      else
        '(st', o) ← process st idx r;
        '(st_end, os) ← loop st' (S idx) results';
        Ok (st_end, o :: os)
  end.

Definition generate_leads : result (list Lead * list Outcome) :=
  results ← search_businesses (industry cfg) (location cfg) (search_pages cfg);
  '(st, os) ← loop {| leads := []; seen_domains := ∅ |} O results;
  Ok (leads st, os).

End Pipeline.

Arguments process imports w order cfg st idx r : simpl never.

(** * Scenarios *)

Definition sweet_crumbs : SearchResult :=
  {| title := "Sweet Crumbs"; link := "https://sweetcrumbs.com"; snippet := "" |}.

Definition bakery_cfg : Config := {|
  hunter_api_key := "";
  max_leads := 1;
  min_score := 1;
  search_pages := 1;
  exclude_domains := "";
  meeting_link := "https://calendly.com/your-name/meeting";
  industry := "Bakeries";
  location := "Austin"
|}.

Definition bakery_page : string :=
  "<p>Sweet Crumbs: mail contact@sweetcrumbs.com, a team of 50 employees</p>".

Definition bakery_world : World := {|
  serpapi := fun p =>
    if String.eqb (q p) "Bakeries in Austin" then Ok [sweet_crumbs] else Ok [];
  http_text := fun _ => Ok bakery_page;
  hunter := fun _ => Raise RequestException;
  llm_invoke := fun _ => Ok ("Lead Quality: Warm" +:+ nl +:+ "Lead Score: 7");
  bs4_get_text := fun html => html;
  now := fun _ => "2026-01-01 09:00:00"
|}.

(** a world in which every request times out *)
Definition offline_world : World := {|
  serpapi := fun _ => Raise RequestException;
  http_text := fun _ => Raise RequestException;
  hunter := fun _ => Raise RequestException;
  llm_invoke := fun _ => Raise LLMError;
  bs4_get_text := fun html => html;
  now := fun _ => ""
|}.

(** hits for the LinkedIn query, and two hits of one domain *)

Definition acme_hits : list SearchResult :=
  [{| title := "Jane Roe - Founder - Acme Bakery";
      link := "https://www.linkedin.com/company/acme-bakery"; snippet := "" |};
   {| title := "John Doe - Owner at Acme Logistics";
      link := "https://www.linkedin.com/company/acme-logistics"; snippet := "" |}].

Definition acme_world : World := {|
  serpapi := fun _ => Ok acme_hits;
  http_text := fun _ => Raise RequestException;
  hunter := fun _ => Raise RequestException;
  llm_invoke := fun _ => Raise LLMError;
  bs4_get_text := fun html => html;
  now := fun _ => ""
|}.

Definition sweet_crumbs_menu : SearchResult :=
  {| title := "Menu | Sweet Crumbs"; link := "https://www.sweetcrumbs.com/menu";
     snippet := "" |}.

Definition twin_world : World := {|
  serpapi := fun p =>
    if String.eqb (q p) "Bakeries in Austin"
    then Ok [sweet_crumbs; sweet_crumbs_menu] else Ok [];
  http_text := fun _ => Ok bakery_page;
  hunter := fun _ => Raise RequestException;
  llm_invoke := fun _ => Ok ("Lead Quality: Warm" +:+ nl +:+ "Lead Score: 7");
  bs4_get_text := fun html => html;
  now := fun _ => "2026-01-01 09:00:00"
|}.

Definition twin_cfg : Config := {|
  hunter_api_key := "";
  max_leads := 5;
  min_score := 5;
  search_pages := 1;
  exclude_domains := "";
  meeting_link := "https://calendly.com/your-name/meeting";
  industry := "Bakeries";
  location := "Austin"
|}.

Definition sweet_crumbs_lead : Lead := {|
  Company := "Sweet Crumbs";
  Website := "https://sweetcrumbs.com";
  Email := "contact@sweetcrumbs.com";
  Email_Status := "Not Verified";
  Email_Score := 0;
  Phone := "";
  Company_Size := "Small (1-50)";
  Technology_Stack := "None detected";
  LinkedIn := "";
  Twitter := "";
  Facebook := "";
  Key_Contact := "";
  Buying_Signals := "None";
  Lead_Score := 5;
  Lead_Analysis := "Lead Quality: Warm" +:+ nl +:+ "Lead Score: 7";
  Email_Variations := "Lead Quality: Warm" +:+ nl +:+ "Lead Score: 7";
  Follow_up_Sequence := "Lead Quality: Warm" +:+ nl +:+ "Lead Score: 7";
  Multi_channel_Outreach := "Lead Quality: Warm" +:+ nl +:+ "Lead Score: 7";
  Meeting_Link := "https://calendly.com/your-name/meeting";
  Generated_Date := "2026-01-01 09:00:00"
|}.




(** ** Notions used in the statements *)

Definition has_company_page (r : SearchResult) : bool :=
  Str.contains "linkedin.com/company" (link r).
Definition names_founder (r : SearchResult) : bool :=
  existsb (fun k => Str.contains k (Str.lower (title r))) founder_keywords.

(** [is_company_email] as the claim words it: a boolean, false for a free
    mail provider, and otherwise true exactly when the domain of the website
    occurs in the domain of the email. *)
Definition is_company_email_as_claimed (email website : string) : Prop :=
  (∃ b, is_company_email email website = PyBool b)
  ∧ (mem (email_domain email) FREE_EMAIL_DOMAINS = true →
     is_company_email email website = PyBool false)
  ∧ (mem (email_domain email) FREE_EMAIL_DOMAINS = false →
     (is_company_email email website = PyBool true
      ↔ Str.contains (get_domain website) (email_domain email) = true)).




(** the value of a decimal digit, and the number a string of decimal digits
    writes: each digit counts for its power of ten *)
Definition decimal_digit (c : ascii) : Z :=
  match c with
  | "0" => 0 | "1" => 1 | "2" => 2 | "3" => 3 | "4" => 4
  | "5" => 5 | "6" => 6 | "7" => 7 | "8" => 8 | "9" => 9
  | _ => 0
  end%char.

Fixpoint decimal_value (ds : string) : Z :=
  match ds with
  | EmptyString => 0
  | String c ds' => decimal_digit c * 10 ^ Z.of_nat (String.length ds') + decimal_value ds'
  end.

(** the result of [int] on a string of decimal digits *)
Definition int_of_digits (ds : string) : result Z :=
  if Z.of_nat (String.length ds) <=? 4300 then Ok (decimal_value ds) else Raise ValueError.



Definition lead_domain (l : Lead) : string := get_domain (Website l).

(** The contacts and the lead score that the body of the loop computes for
    a hit that has passed the gates on its domain, lines 412 to 448; [None]
    when the page gives neither a company email nor a valid phone. *)
Record Scored : Type := {
  sc_email : string;
  sc_phone : string;
  sc_score : Z
}.

Definition score_candidate (imports : list string) (w : World) (order : SetOrder)
    (cfg : Config) (r : SearchResult) : result (option Scored) :=
  let company := title r in
  let website := link r in
  let '(emails, phones, page_text, company_size, tech_stack) :=
    scrape_website imports w order website in
  let valid_email :=
    next_or_empty (fun e => py_truthy (is_company_email e website)) emails in
  let valid_phone := next_or_empty is_valid_phone phones in
  if negb (Str.truthy valid_email) && negb (Str.truthy valid_phone)
  then Ok None
  else
    let '(email_status, email_score) :=
      if Str.truthy valid_email && Str.truthy (hunter_api_key cfg)
      then verify_email_hunter w cfg valid_email
      else ("Not Verified", 0) in
    '(linkedin, founder) ← get_linkedin_info w company (location cfg);
    let buying_signals := check_buying_signals w company (location cfg) in
    let company_info := lines
      [""; "Company: " +:+ company;
       "Website: " +:+ website;
       "Email: " +:+ valid_email +:+ " (Status: " +:+ email_status +:+ ")";
       "Phone: " +:+ valid_phone;
       "Size: " +:+ company_size;
       "Tech Stack: " +:+ tech_stack;
       "LinkedIn: " +:+ linkedin;
       "Key Contact: " +:+ founder;
       "Buying Signals: " +:+ buying_signals;
       ""] in
    analysis ← score_lead_enhanced w company_info (industry cfg) buying_signals;
    ai_score ← ai_score_of analysis;
    Ok (Some {| sc_email := valid_email;
                sc_phone := valid_phone;
                sc_score := lead_score_of valid_email valid_phone buying_signals
                              linkedin ai_score |}).

(** The hit passes the gates of lines 401 to 408 when the loop is in the
    state [st]: it has a domain, the domain is new, the URL carries no
    blocked marker and the domain is not excluded. *)
Definition passes_gates (cfg : Config) (st : State) (r : SearchResult) : Prop :=
  get_domain (link r) ≠ ""
  ∧ (get_domain (link r) ∉ seen_domains st)
  ∧ any_in BLOCKED_DOMAINS (Str.lower (link r)) = false
  ∧ (get_domain (link r) ∉ excluded cfg).

(** the state in which the loop starts *)
Definition initial : State := {| leads := []; seen_domains := ∅ |}.








(** * Properties *)

(** ** The extractors on the examples of the specification *)

Example size_600 : extract_company_size "We have 600 employees" = Ok "Enterprise (500+)".
Proof. reflexivity. Qed.

Example size_boutique : extract_company_size "a boutique local shop" = Ok "Small".
Proof. reflexivity. Qed.

Example size_none : extract_company_size "nothing relevant" = Ok "Unknown".
Proof. reflexivity. Qed.

Example emails_ex :
  Re.findall Re.email_at "mail contact@sweetcrumbs.com or a.b@x-y.org." =
  ["contact@sweetcrumbs.com"; "a.b@x-y.org."].
Proof. reflexivity. Qed.

Example phones_ex :
  Re.findall Re.phone_at "call +1 555-123-4567 now, 50 employees" = ["+1 555-123-4567 "].
Proof. reflexivity. Qed.

(** ** The scenario of the bakery *)

(** When the module does not bind [BeautifulSoup], [scrape_website] ends in
    its [except] branch whatever the page holds: the name is looked up and is
    not there. *)
Lemma scrape_website_unbound (imports : list string) (w : World) (order : SetOrder)
    (url : string) :
  mem "BeautifulSoup" imports = false →
  scrape_website imports w order url = ([], [], "", "Unknown", "None").
Proof.
  intros H. unfold scrape_website, global_BeautifulSoup. rewrite H.
  destruct (http_text w url) as [html|e]; reflexivity.
Qed.

Lemma scrape_website_app (w : World) (order : SetOrder) (url : string) :
  scrape_website app_imports w order url = ([], [], "", "Unknown", "None").
Proof. apply scrape_website_unbound. reflexivity. Qed.

(** Then every candidate that reaches the scrape is turned away at the
    contact gate, and no candidate makes the body of the loop raise. *)
Lemma process_unbound (imports : list string) (w : World) (order : SetOrder) (cfg : Config)
    (st : State) (idx : nat) (r : SearchResult) :
  mem "BeautifulSoup" imports = false →
  ∃ st' o, process imports w order cfg st idx r = Ok (st', o)
           ∧ leads st' = leads st
           ∧ (o = NoDomain ∨ o = Duplicate ∨ o = Blocked ∨ o = Excluded ∨ o = NoContact).
Proof.
  intros H. unfold process. rewrite (scrape_website_unbound _ _ _ _ H).
  repeat lazymatch goal with
  | |- context [if ?b then _ else _] => destruct b eqn:?
  end; simpl in *; try discriminate; eauto 10.
Qed.

(** C1.  In the scenario of the bakery (one search hit, Sweet Crumbs at
    https://sweetcrumbs.com; at most one lead, minimum score 1, one page, no
    verification key) app.py returns no lead at all, whatever the page and
    the other services answer: the one candidate is turned away at the
    contact gate. *)
Theorem bakery_scenario_no_lead (w : World) (order : SetOrder) :
  serpapi w {| q := "Bakeries in Austin"; num := 10; start := Some 0 |} = Ok [sweet_crumbs] →
  generate_leads app_imports w order bakery_cfg = Ok ([], [NoContact]).
Proof.
  intros Hs. unfold generate_leads, search_businesses. simpl search_pages_from.
  change (serpapi w _)
    with (serpapi w {| q := "Bakeries in Austin"; num := 10; start := Some 0 |}).
  rewrite Hs. simpl. unfold process. rewrite scrape_website_app.
  vm_compute. reflexivity.
Qed.

Lemma bakery_scenario_no_lead_witness :
  serpapi bakery_world {| q := "Bakeries in Austin"; num := 10; start := Some 0 |}
    = Ok [sweet_crumbs]
  ∧ generate_leads app_imports bakery_world id bakery_cfg = Ok ([], [NoContact]).
Proof.
  split; [reflexivity | apply bakery_scenario_no_lead; reflexivity].
Defined.

(** With [BeautifulSoup] imported the same run yields the lead that the
    scenario expects. *)
Lemma bakery_scenario_with_import :
  ∃ l, generate_leads ("BeautifulSoup" :: app_imports) bakery_world id bakery_cfg
         = Ok ([l], [Accepted l])
       ∧ Email l = "contact@sweetcrumbs.com"
       ∧ Email_Status l = "Not Verified"
       ∧ Company_Size l = "Small (1-50)"
       ∧ Lead_Score l = 5.
Proof. eexists. vm_compute. repeat split. Qed.

(** ** Failures of the external services *)

(** The fetchers whose body sits in [try/except] fall back to their default
    when the request fails. *)
Lemma guarded_fetchers_default (w : World) (cfg : Config) (company location email : string) :
  (∀ p, ∃ e, serpapi w p = Raise e) →
  (∃ e, hunter w email = Raise e) →
  check_buying_signals w company location = "None"
  ∧ get_social_presence w company
      = {| social_LinkedIn := ""; social_Twitter := ""; social_Facebook := "" |}
  ∧ verify_email_hunter w cfg email = ("Not Verified", 0).
Proof.
  intros Hs [e He]. unfold check_buying_signals, get_social_presence, verify_email_hunter.
  repeat split.
  - edestruct Hs as [e' ->]. reflexivity.
  - edestruct Hs as [e' ->]. reflexivity.
  - rewrite He. destruct (Str.truthy (hunter_api_key cfg)); reflexivity.
Qed.

(** C3.  [search_businesses] and [get_linkedin_info] have no [try/except]:
    when the request of the first page, or of the LinkedIn query, fails, the
    exception reaches the caller, and with it ends the whole run. *)
Theorem unguarded_fetchers_raise (imports : list string) (w : World) (order : SetOrder)
    (cfg : Config) (industry location company : string) (pages : nat) (e : exn) :
  (∀ p, serpapi w p = Raise e) →
  search_businesses w industry location (S pages) = Raise e
  ∧ get_linkedin_info w company location = Raise e
  ∧ (search_pages cfg ≠ O → generate_leads imports w order cfg = Raise e).
Proof.
  intros Hs. repeat split.
  - unfold search_businesses. simpl. rewrite Hs. reflexivity.
  - unfold get_linkedin_info. rewrite Hs. reflexivity.
  - intros Hp. unfold generate_leads, search_businesses.
    destruct (search_pages cfg) as [|n]; [congruence|].
    simpl. rewrite Hs. reflexivity.
Qed.

Lemma unguarded_fetchers_raise_witness :
  (∀ p, serpapi offline_world p = Raise RequestException)
  ∧ search_businesses offline_world "Bakeries" "Austin" 1 = Raise RequestException
  ∧ get_linkedin_info offline_world "Sweet Crumbs" "Austin" = Raise RequestException
  ∧ generate_leads app_imports offline_world id bakery_cfg = Raise RequestException.
Proof.
  pose proof (unguarded_fetchers_raise app_imports offline_world id bakery_cfg
                "Bakeries" "Austin" "Sweet Crumbs" O RequestException
                (fun _ => eq_refl)) as (H1 & H2 & H3).
  split; [reflexivity|]. split; [exact H1|]. split; [exact H2|].
  apply H3. discriminate.
Defined.

(** ** LinkedIn page and founder *)

(** What the loop of [get_linkedin_info] keeps is the last hit of each kind,
    not the first. *)
Lemma linkedin_of_last (rs : list SearchResult) :
  linkedin_of rs =
    (default "" (link <$> last (List.filter has_company_page rs)),
     default "" (title <$> last (List.filter names_founder rs))).
Proof.
  unfold linkedin_of.
  assert (H : ∀ rs a b,
    fold_left linkedin_step rs (a, b) =
      (default a (link <$> last (List.filter has_company_page rs)),
       default b (title <$> last (List.filter names_founder rs)))).
  { clear rs. induction rs as [|r rs IH]; intros a b; [reflexivity|].
    cbn [fold_left List.filter].
    replace (linkedin_step (a, b) r)
      with (if has_company_page r then link r else a,
            if names_founder r then title r else b) by reflexivity.
    rewrite IH.
    destruct (has_company_page r), (names_founder r);
      rewrite ?last_cons;
      destruct (last (List.filter has_company_page rs)),
               (last (List.filter names_founder rs)); reflexivity. }
  apply H.
Qed.

(** C6.  With two hits that both carry a company page and a founder title,
    [get_linkedin_info] returns the link and the title of the second. *)
Theorem get_linkedin_info_keeps_last (w : World) (company location : string) :
  serpapi w {| q := dq +:+ company +:+ dq +:+ " " +:+ location +:+ " LinkedIn";
               num := 5; start := None |} = Ok acme_hits →
  get_linkedin_info w company location =
    Ok ("https://www.linkedin.com/company/acme-logistics",
        "John Doe - Owner at Acme Logistics").
Proof. intros Hs. unfold get_linkedin_info. rewrite Hs. reflexivity. Qed.

Lemma get_linkedin_info_keeps_last_witness :
  get_linkedin_info acme_world "Acme" "Austin" =
    Ok ("https://www.linkedin.com/company/acme-logistics",
        "John Doe - Owner at Acme Logistics").
Proof. apply (get_linkedin_info_keeps_last acme_world "Acme" "Austin"). reflexivity. Defined.

(** ** Domains and company emails *)

(** C7.  The host name [lawww.com] holds "www." away from its start, and
    [get_domain] removes it. *)
Theorem get_domain_removes_inner_www :
  Url.netloc "https://lawww.com/" = Ok "lawww.com"
  ∧ get_domain "https://lawww.com/" = "lacom".
Proof. split; reflexivity. Qed.

(** The two examples of the claim hold; a port stays in the result. *)
Lemma get_domain_examples :
  get_domain "https://www.example.com/x" = "example.com"
  ∧ get_domain "not a url" = ""
  ∧ get_domain "https://www.example.com:8080/x" = "example.com:8080".
Proof. repeat split; reflexivity. Qed.

(** For a website without a network location the result is the empty string:
    not a boolean, and not true although the empty domain occurs in every
    email domain. *)
Lemma is_company_email_not_as_claimed :
  ¬ is_company_email_as_claimed "a@acme.com" "acme.com".
Proof.
  intros ([b Hb] & _). vm_compute in Hb. discriminate.
Qed.

(** C8, amended.  The result is [False] for a free mail provider; otherwise,
    when the website has a non-empty domain, it is the boolean that tells
    whether that domain occurs in the domain of the email; and when the
    domain of the website is empty it is that empty string, which is falsy. *)
Theorem is_company_email_cases (email website : string) :
  (mem (email_domain email) FREE_EMAIL_DOMAINS = true →
   is_company_email email website = PyBool false)
  ∧ (mem (email_domain email) FREE_EMAIL_DOMAINS = false →
     get_domain website ≠ "" →
     is_company_email email website
       = PyBool (Str.contains (get_domain website) (email_domain email)))
  ∧ (mem (email_domain email) FREE_EMAIL_DOMAINS = false →
     get_domain website = "" →
     is_company_email email website = PyStr "")
  ∧ is_company_email "a@gmail.com" "https://acme.com" = PyBool false
  ∧ is_company_email "a@acme.com" "https://acme.com" = PyBool true
  ∧ is_company_email "a@sub.acme.com" "https://acme.com" = PyBool true.
Proof.
  unfold is_company_email. repeat split.
  - intros ->. reflexivity.
  - intros -> Hd. destruct (get_domain website); [congruence | reflexivity].
  - intros -> ->. reflexivity.
Qed.

Lemma is_company_email_cases_witness :
  mem (email_domain "a@sub.acme.com") FREE_EMAIL_DOMAINS = false
  ∧ get_domain "https://acme.com" ≠ ""
  ∧ is_company_email "a@sub.acme.com" "https://acme.com" = PyBool true.
Proof.
  pose proof (is_company_email_cases "a@sub.acme.com" "https://acme.com")
    as (_ & H & _).
  split; [reflexivity|]. split; [discriminate|].
  apply H; [reflexivity | discriminate].
Defined.

(** ** The hybrid score *)

Section StringFacts.

Lemma str_app_cons (c : ascii) (a b : string) : String c a +:+ b = String c (a +:+ b).
Proof. reflexivity. Qed.

Lemma str_app_nil_r (s : string) : s +:+ "" = s.
Proof. induction s as [|c s IH]; [reflexivity|]. rewrite str_app_cons, IH. reflexivity. Qed.

Lemma span_spec (p : ascii → bool) (s : string) :
  s = fst (Str.span p s) +:+ snd (Str.span p s)
  ∧ Str.forallb p (fst (Str.span p s)) = true.
Proof.
  induction s as [|c s [IH1 IH2]]; [split; reflexivity|].
  simpl. destruct (p c) eqn:Hc; [|split; reflexivity].
  destruct (Str.span p s) as [a b]. simpl in *.
  rewrite str_app_cons, <- IH1, Hc, IH2. split; reflexivity.
Qed.

(** a run of [p]-characters in front is taken whole *)
Lemma span_app (p : ascii → bool) (a b : string) :
  Str.forallb p a = true →
  Str.span p (a +:+ b) = (a +:+ fst (Str.span p b), snd (Str.span p b)).
Proof.
  induction a as [|c a IH]; intros Ha.
  - change ("" +:+ b) with b. destruct (Str.span p b); reflexivity.
  - simpl in Ha. apply andb_true_iff in Ha as [Hc Ha].
    rewrite str_app_cons. simpl. rewrite Hc, (IH Ha). reflexivity.
Qed.

Lemma startswith_app (p s : string) : Str.startswith p (p +:+ s) = true.
Proof.
  induction p as [|c p IH]; [reflexivity|].
  rewrite str_app_cons. simpl. rewrite Ascii.eqb_refl. exact IH.
Qed.

Lemma startswith_drop (p s : string) :
  Str.startswith p s = true → s = p +:+ Str.drop (String.length p) s.
Proof.
  revert s. induction p as [|c p IH]; intros s H; [reflexivity|].
  destruct s as [|d s]; [discriminate|]. simpl in H.
  apply andb_true_iff in H as [Hc H]. apply Ascii.eqb_eq in Hc as ->.
  rewrite str_app_cons. simpl. f_equal. apply IH, H.
Qed.



Lemma int_acc_nonneg (s : string) (acc : Z) :
  0 ≤ acc → Str.forallb Str.is_digit s = true → 0 ≤ Str.int_acc acc s.
Proof.
  revert acc. induction s as [|c s IH]; intros acc Hacc Hs; [exact Hacc|].
  simpl in *. apply andb_true_iff in Hs as [Hc Hs]. apply IH; [|exact Hs].
  unfold Str.is_digit, Str.in_range in Hc. apply andb_true_iff in Hc as [Hc _].
  apply Z.leb_le in Hc. unfold Str.digit_val. lia.
Qed.

Lemma search_Some {A : Type} (m : string → option A) (s : string) (x : A) :
  Re.search m s = Some x → ∃ pre t, s = pre +:+ t ∧ m t = Some x.
Proof.
  induction s as [|c s IH]; simpl; intros H.
  - exists "", "". destruct (m ""); [auto | discriminate].
  - destruct (m (String c s)) eqn:Hm.
    + exists "", (String c s). rewrite Hm. auto.
    + destruct (IH H) as (pre & t & -> & Ht).
      exists (String c pre), t. auto.
Qed.


End StringFacts.

Lemma lead_score_at_sound (t g : string) :
  Re.lead_score_at t = Some g →
  ∃ ws rest, t = "Lead Score:" +:+ ws +:+ g +:+ rest
             ∧ Str.forallb Str.is_space ws = true
             ∧ Str.forallb Str.is_digit g = true
             ∧ g ≠ "".
Proof.
  unfold Re.lead_score_at. destruct (Str.startswith "Lead Score:" t) eqn:Hp; [|discriminate].
  apply startswith_drop in Hp. change (String.length "Lead Score:") with 11%nat in Hp.
  set (u := Str.drop 11 t) in *.
  destruct (span_spec Str.is_space u) as [Hu Hws].
  set (v := snd (Str.span Str.is_space u)) in *.
  destruct (span_spec Str.is_digit v) as [Hv Hds].
  destruct (Re.nonempty (fst (Str.span Str.is_digit v))) eqn:Hne; [|discriminate].
  intros [= <-].
  exists (fst (Str.span Str.is_space u)), (snd (Str.span Str.is_digit v)).
  repeat split; [| exact Hws | exact Hds |].
  - rewrite <- Hv, <- Hu. exact Hp.
  - intros E. rewrite E in Hne. discriminate.
Qed.


Lemma digit_val_decimal (c : ascii) :
  Str.is_digit c = true → Str.digit_val c = decimal_digit c.
Proof.
  destruct c as [[] [] [] [] [] [] [] []]; vm_compute; intros H;
    first [reflexivity | discriminate H].
Qed.

Lemma int_acc_decimal (ds : string) (acc : Z) :
  Str.forallb Str.is_digit ds = true →
  Str.int_acc acc ds = acc * 10 ^ Z.of_nat (String.length ds) + decimal_value ds.
Proof.
  revert acc. induction ds as [|c ds IH]; intros acc H.
  - simpl. lia.
  - simpl in H. apply andb_true_iff in H as [Hc H].
    cbn [Str.int_acc decimal_value String.length]. rewrite (IH _ H), (digit_val_decimal c Hc).
    rewrite Nat2Z.inj_succ, Z.pow_succ_r by lia. ring.
Qed.

(** [int] on decimal digits is the number they write, up to 4300 digits *)
Lemma int_digits (ds : string) :
  Str.forallb Str.is_digit ds = true → Str.int ds = int_of_digits ds.
Proof.
  intros H. unfold Str.int, int_of_digits, Str.int_max_str_digits.
  rewrite (int_acc_decimal ds 0 H), Z.ltb_antisym.
  destruct (Z.of_nat (String.length ds) <=? 4300); reflexivity.
Qed.

Lemma decimal_digit_nonneg (c : ascii) : 0 ≤ decimal_digit c.
Proof. destruct c as [[] [] [] [] [] [] [] []]; vm_compute; congruence. Qed.

Lemma decimal_value_nonneg (ds : string) : 0 ≤ decimal_value ds.
Proof.
  induction ds as [|c ds IH]; [reflexivity|]. cbn [decimal_value].
  pose proof (decimal_digit_nonneg c).
  assert (0 ≤ 10 ^ Z.of_nat (String.length ds)) by (apply Z.pow_nonneg; lia). nia.
Qed.













(** ** The loop over the candidates *)

Section Loop.

Variable imports : list string.
Variable w : World.
Variable order : SetOrder.
Variable cfg : Config.

(** What one pass through the body does to the state, by outcome. *)
Definition step_spec (st : State) (r : SearchResult) (st' : State) (o : Outcome) : Prop :=
  let d := get_domain (link r) in
  match o with
  | NoDomain => st' = st ∧ d = ""
  | Duplicate => st' = st ∧ d ≠ "" ∧ (d ∈ seen_domains st)
  | Blocked => st' = st ∧ d ≠ "" ∧ (d ∉ seen_domains st)
  | Excluded => st' = st ∧ d ≠ "" ∧ (d ∉ seen_domains st) ∧ (d ∈ excluded cfg)
  | NoContact =>
      leads st' = leads st ∧ (seen_domains st' = seen_domains st ∪ {[d]})
      ∧ d ≠ "" ∧ (d ∉ seen_domains st) ∧ (d ∉ excluded cfg)
  | BelowMinimum s =>
      leads st' = leads st ∧ (seen_domains st' = seen_domains st ∪ {[d]})
      ∧ d ≠ "" ∧ (d ∉ seen_domains st) ∧ (d ∉ excluded cfg)
      ∧ s < min_score cfg
      ∧ ∃ valid_email valid_phone buying_signals linkedin analysis ai_score,
          ai_score_of analysis = Ok ai_score
          ∧ s = lead_score_of valid_email valid_phone buying_signals linkedin ai_score
  | Accepted l =>
      leads st' = (leads st ++ [l])%list ∧ (seen_domains st' = seen_domains st ∪ {[d]})
      ∧ d ≠ "" ∧ (d ∉ seen_domains st) ∧ (d ∉ excluded cfg)
      ∧ min_score cfg ≤ Lead_Score l
      ∧ Company l = title r ∧ Website l = link r
      ∧ (Str.truthy (Email l) = true ∨ Str.truthy (Phone l) = true)
      ∧ ∃ linkedin ai_score,
          ai_score_of (Lead_Analysis l) = Ok ai_score
          ∧ Lead_Score l = lead_score_of (Email l) (Phone l) (Buying_Signals l) linkedin
                             ai_score
  end.

Lemma truthy_false (s : string) : Str.truthy s = false ↔ s = "".
Proof. destruct s; simpl; split; congruence. Qed.

Lemma process_spec (st : State) (idx : nat) (r : SearchResult) (st' : State) (o : Outcome) :
  process imports w order cfg st idx r = Ok (st', o) → step_spec st r st' o.
Proof.
  unfold process, step_spec.
  destruct (Str.truthy (get_domain (link r))) eqn:Hd; simpl negb; cbn [orb].
  2:{ intros [= <- <-]. apply truthy_false in Hd. auto. }
  assert (Hne : get_domain (link r) ≠ "").
  { intros E. rewrite E in Hd. discriminate. }
  case_bool_decide as Hseen; [intros [= <- <-]; auto|].
  destruct (any_in BLOCKED_DOMAINS _); [intros [= <- <-]; auto|].
  case_bool_decide as Hex; [intros [= <- <-]; auto|].
  destruct (scrape_website imports w order (link r))
    as [[[[emails phones] page_text] company_size] tech_stack].
  set (valid_email := next_or_empty _ emails).
  set (valid_phone := next_or_empty _ phones).
  destruct (negb (Str.truthy valid_email) && negb (Str.truthy valid_phone)) eqn:Hgate;
    [intros [= <- <-]; simpl; auto 10|].
  match goal with
  | |- context [let '(_, _) := ?x in _] => destruct x as [email_status email_score]
  end.
  destruct (get_linkedin_info w (title r) (location cfg)) as [[linkedin founder]|e];
    [|discriminate].
  cbn [mbind result_bind].
  destruct (score_lead_enhanced _ _ _ _) as [analysis|e]; [|discriminate].
  cbn [mbind result_bind].
  destruct (ai_score_of analysis) as [ai_score|e] eqn:Hai; [|discriminate].
  cbn [mbind result_bind].
  match goal with
  | |- context [if ?b then _ else _] => destruct b eqn:Hmin
  end.
  - intros [= <- <-]. simpl. apply Z.ltb_lt in Hmin. eauto 20.
  - destruct (generate_email_variations _ _ _ _) as [ev|e]; [|discriminate].
    cbn [mbind result_bind].
    destruct (generate_follow_up_sequence _ _ _) as [fu|e]; [|discriminate].
    cbn [mbind result_bind].
    destruct (generate_multichannel_outreach _ _ _ _) as [mc|e]; [|discriminate].
    cbn [mbind result_bind].
    intros [= <- <-]. simpl. apply Z.ltb_ge in Hmin.
    repeat split; auto; [|eauto].
    destruct (Str.truthy valid_email), (Str.truthy valid_phone); auto; discriminate.
Qed.

Definition extends (st st' : State) : Prop :=
  seen_domains st ⊆ seen_domains st'
  ∧ ∃ more, leads st' = (leads st ++ more)%list
            ∧ NoDup (lead_domain <$> more)
            ∧ ∀ l, l ∈ more →
                (lead_domain l ∉ seen_domains st) ∧ (lead_domain l ∈ seen_domains st').

Lemma extends_refl (st : State) : extends st st.
Proof.
  split; [done|]. exists []. rewrite app_nil_r.
  repeat split; [constructor | |]; intros; exfalso; eapply not_elem_of_nil; eauto.
Qed.

Lemma extends_trans (a b c : State) : extends a b → extends b c → extends a c.
Proof.
  intros [Hab (m1 & E1 & N1 & D1)] [Hbc (m2 & E2 & N2 & D2)].
  split; [set_solver|]. exists (m1 ++ m2)%list. split; [|split].
  - rewrite E2, E1. symmetry. apply List.app_assoc.
  - rewrite fmap_app. apply NoDup_app. split; [exact N1|]. split; [|exact N2].
    intros d Hd1 Hd2.
    apply list_elem_of_fmap in Hd1 as (l1 & -> & Hl1).
    apply list_elem_of_fmap in Hd2 as (l2 & E & Hl2).
    destruct (D1 l1 Hl1) as [_ Hin]. destruct (D2 l2 Hl2) as [Hout _].
    rewrite <- E in Hout. contradiction.
  - intros l Hl. apply elem_of_app in Hl as [Hl|Hl].
    + destruct (D1 l Hl). split; [assumption | set_solver].
    + destruct (D2 l Hl). split; [set_solver | assumption].
Qed.

Lemma step_extends (st : State) (r : SearchResult) (st' : State) (o : Outcome) :
  step_spec st r st' o → extends st st'.
Proof.
  unfold step_spec. destruct o.
  1-4: intros [-> _]; apply extends_refl.
  1-2: intros (El & Es & _); split; [set_solver|]; exists [];
       rewrite app_nil_r; repeat split; [assumption | constructor | |];
       intros; exfalso; eapply not_elem_of_nil; eauto.
  intros (El & Es & _ & Hseen & _ & _ & _ & Hw & _).
  split; [set_solver|]. exists [lead]. split; [exact El|]. split.
  - apply NoDup_singleton.
  - intros l Hl. apply list_elem_of_singleton in Hl as ->.
    unfold lead_domain. rewrite Hw. split; [exact Hseen | set_solver].
Qed.

#[local] Abbreviation run_loop := (loop imports w order cfg).
#[local] Abbreviation run_process := (process imports w order cfg).

Lemma loop_cons (st : State) (idx : nat) (r : SearchResult) (rs : list SearchResult)
    (st_end : State) (trace : list Outcome) :
  run_loop st idx (r :: rs) = Ok (st_end, trace) →
  (max_leads cfg ≤ Z.of_nat (length (leads st)) ∧ st_end = st ∧ trace = [])
  ∨ (Z.of_nat (length (leads st)) < max_leads cfg
     ∧ ∃ st' o os, run_process st idx r = Ok (st', o)
                   ∧ run_loop st' (S idx) rs = Ok (st_end, os)
                   ∧ trace = o :: os).
Proof.
  simpl. destruct (max_leads cfg <=? _) eqn:Hcap; intros H.
  - injection H as <- <-. left. apply Z.leb_le in Hcap. auto.
  - apply Z.leb_gt in Hcap. right. split; [exact Hcap|].
    destruct (run_process st idx r) as [[st' o]|e] eqn:Hp; [|discriminate].
    cbn [mbind result_bind] in H.
    destruct (run_loop st' (S idx) rs) as [[st2 os]|e] eqn:Hl; [|discriminate].
    cbn [mbind result_bind] in H. injection H as <- <-. eauto 10.
Qed.

Lemma loop_extends (rs : list SearchResult) (st : State) (idx : nat)
    (st_end : State) (trace : list Outcome) :
  run_loop st idx rs = Ok (st_end, trace) → extends st st_end.
Proof.
  revert st idx trace. induction rs as [|r rs IH]; intros st idx trace H.
  - injection H as <- <-. apply extends_refl.
  - apply loop_cons in H as [(_ & -> & _)|(_ & st' & o & os & Hp & Hl & _)].
    + apply extends_refl.
    + eapply extends_trans; [eapply step_extends, process_spec, Hp | eapply IH, Hl].
Qed.

(** The trace is as long as the list of hits, unless the loop left at
    [break]. *)
Lemma loop_trace_length (rs : list SearchResult) (st : State) (idx : nat)
    (st_end : State) (trace : list Outcome) :
  run_loop st idx rs = Ok (st_end, trace) →
  (length trace ≤ length rs)%nat
  ∧ ((length trace < length rs)%nat → max_leads cfg ≤ Z.of_nat (length (leads st_end))).
Proof.
  revert st idx trace. induction rs as [|r rs IH]; intros st idx trace H.
  - injection H as <- <-. simpl. split; [lia|lia].
  - apply loop_cons in H as [(Hcap & -> & ->)|(_ & st' & o & os & Hp & Hl & ->)].
    + simpl. split; [lia|auto].
    + destruct (IH _ _ _ Hl) as [H1 H2]. simpl. split; [lia|]. intros. apply H2. lia.
Qed.

(** The candidate behind an entry of the trace, and the states around it. *)
Lemma loop_lookup (rs : list SearchResult) (st : State) (idx : nat)
    (st_end : State) (trace : list Outcome) (j : nat) (o : Outcome) :
  run_loop st idx rs = Ok (st_end, trace) →
  trace !! j = Some o →
  ∃ r st_j st_j', rs !! j = Some r
    ∧ run_process st_j (idx + j) r = Ok (st_j', o)
    ∧ extends st st_j ∧ extends st_j' st_end
    ∧ Z.of_nat (length (leads st_j)) < max_leads cfg.
Proof.
  revert st idx trace j. induction rs as [|r rs IH]; intros st idx trace j H Hj.
  - injection H as <- <-. discriminate.
  - apply loop_cons in H as [(_ & _ & ->)|(Hcap & st' & o' & os & Hp & Hl & ->)];
      [discriminate|].
    destruct j as [|j].
    + injection Hj as ->. exists r, st, st'. rewrite Nat.add_0_r.
      split; [reflexivity|]. split; [exact Hp|]. split; [apply extends_refl|].
      split; [eapply loop_extends; exact Hl | exact Hcap].
    + destruct (IH _ _ _ _ Hl Hj) as (r' & a & b & Hr & Hp' & E1 & E2 & Hc).
      exists r', a, b. replace (idx + S j)%nat with (S idx + j)%nat by lia.
      split; [exact Hr|]. split; [exact Hp'|]. split; [|split; assumption].
      eapply extends_trans; [eapply step_extends, process_spec, Hp | exact E1].
Qed.

(** Two entries of the trace: the state after the earlier is extended by the
    state before the later. *)
Lemma loop_lookup2 (rs : list SearchResult) (st : State) (idx : nat)
    (st_end : State) (trace : list Outcome) (i j : nat) (oi oj : Outcome) :
  run_loop st idx rs = Ok (st_end, trace) →
  (i < j)%nat → trace !! i = Some oi → trace !! j = Some oj →
  ∃ ri rj st_i st_i' st_j st_j',
    rs !! i = Some ri ∧ rs !! j = Some rj
    ∧ run_process st_i (idx + i) ri = Ok (st_i', oi)
    ∧ run_process st_j (idx + j) rj = Ok (st_j', oj)
    ∧ extends st st_i ∧ extends st_i' st_j ∧ extends st_j' st_end.
Proof.
  revert st idx trace i j. induction rs as [|r rs IH]; intros st idx trace i j H Hij Hi Hj.
  - injection H as <- <-. discriminate.
  - apply loop_cons in H as [(_ & _ & ->)|(Hcap & st' & o' & os & Hp & Hl & ->)];
      [discriminate|].
    destruct j as [|j]; [lia|]. destruct i as [|i].
    + injection Hi as ->.
      destruct (loop_lookup _ _ _ _ _ _ _ Hl Hj) as (rj & a & b & Hr & Hp' & E1 & E2 & _).
      exists r, rj, st, st', a, b. rewrite Nat.add_0_r.
      replace (idx + S j)%nat with (S idx + j)%nat by lia.
      split; [reflexivity|]. split; [exact Hr|]. split; [exact Hp|].
      split; [exact Hp'|]. split; [apply extends_refl|]. split; assumption.
    + assert (Hij' : (i < j)%nat) by lia.
      destruct (IH _ _ _ _ _ Hl Hij' Hi Hj)
        as (ri & rj & a & a' & b & b' & Hri & Hrj & Hpi & Hpj & E1 & E2 & E3).
      exists ri, rj, a, a', b, b'.
      replace (idx + S i)%nat with (S idx + i)%nat by lia.
      replace (idx + S j)%nat with (S idx + j)%nat by lia.
      split; [exact Hri|]. split; [exact Hrj|]. split; [exact Hpi|].
      split; [exact Hpj|]. split; [|split; assumption].
      eapply extends_trans; [eapply step_extends, process_spec, Hp | exact E1].
Qed.

(** the leads of the accepted candidates, in the order of the trace *)
Definition accepted (trace : list Outcome) : list Lead :=
  omap (fun o => match o with Accepted l => Some l | _ => None end) trace.

Lemma accepted_elem (trace : list Outcome) (l : Lead) :
  l ∈ accepted trace ↔ ∃ j, trace !! j = Some (Accepted l).
Proof.
  unfold accepted. rewrite list_elem_of_omap. split.
  - intros (o & Ho & E). destruct o; try discriminate. injection E as ->.
    apply list_elem_of_lookup in Ho. exact Ho.
  - intros [j Hj]. exists (Accepted l). split; [|reflexivity].
    apply list_elem_of_lookup. eauto.
Qed.

(** The leads that a run adds are those of the accepted candidates. *)
Lemma loop_leads (rs : list SearchResult) (st : State) (idx : nat)
    (st_end : State) (trace : list Outcome) :
  run_loop st idx rs = Ok (st_end, trace) →
  leads st_end = (leads st ++ accepted trace)%list.
Proof.
  revert st idx trace. induction rs as [|r rs IH]; intros st idx trace H.
  - injection H as <- <-. symmetry. apply app_nil_r.
  - apply loop_cons in H as [(_ & -> & ->)|(_ & st' & o & os & Hp & Hl & ->)].
    + symmetry. apply app_nil_r.
    + rewrite (IH _ _ _ Hl). apply process_spec in Hp. unfold step_spec in Hp.
      destruct o; cbn [accepted omap].
      1-4: destruct Hp as [-> _]; reflexivity.
      1-2: destruct Hp as [-> _]; reflexivity.
      destruct Hp as [-> _]. rewrite <- List.app_assoc. reflexivity.
Qed.

(** A candidate whose domain was recorded and who did not become a lead
    leaves the run without a lead for that domain. *)
Lemma recorded_without_lead (rs : list SearchResult) (st_end : State)
    (trace : list Outcome) (i : nat) (r : SearchResult) (o : Outcome) :
  run_loop {| leads := []; seen_domains := ∅ |} O rs = Ok (st_end, trace) →
  rs !! i = Some r → trace !! i = Some o →
  (o = NoContact ∨ ∃ s, o = BelowMinimum s) →
  ∀ l, l ∈ leads st_end → lead_domain l ≠ get_domain (link r).
Proof.
  intros H Hr Hi Ho l Hl.
  destruct (loop_lookup _ _ _ _ _ _ _ H Hi)
    as (r' & a & b & Hr' & Hp & [_ (m0 & E0 & _ & D0)] & [_ (m1 & E1 & _ & D1)] & _).
  rewrite Hr in Hr'. injection Hr' as <-.
  apply process_spec in Hp. unfold step_spec in Hp.
  assert (Hrec : leads b = leads a
                 ∧ seen_domains b = seen_domains a ∪ {[get_domain (link r)]}
                 ∧ get_domain (link r) ∉ seen_domains a).
  { destruct Ho as [->|[s ->]]; destruct Hp as (? & ? & _ & ? & _); auto. }
  destruct Hrec as (El & Es & Hfresh).
  rewrite E1, El, E0 in Hl. simpl in Hl.
  apply elem_of_app in Hl as [Hl|Hl].
  - destruct (D0 l Hl) as [_ Hin]. intros E. rewrite E in Hin. contradiction.
  - destruct (D1 l Hl) as [Hout _]. intros E. apply Hout. rewrite Es, E. set_solver.
Qed.

(** A run over the first hits that ends with room for a lead has looked at
    each of them, and the loop goes on from its state. *)
Lemma loop_app (pre rest : list SearchResult) (st : State) (idx : nat)
    (st1 : State) (tr : list Outcome) :
  run_loop st idx pre = Ok (st1, tr) →
  Z.of_nat (length (leads st1)) < max_leads cfg →
  length tr = length pre
  ∧ run_loop st idx (pre ++ rest)
    = ('(st_end, os) ← run_loop st1 (idx + length pre) rest; Ok (st_end, (tr ++ os)%list)).
Proof.
  revert st idx tr. induction pre as [|r pre IH]; intros st idx tr H Hroom.
  - injection H as <- <-. split; [reflexivity|]. simpl. rewrite Nat.add_0_r.
    destruct (run_loop st idx rest) as [[a b]|e]; reflexivity.
  - apply loop_cons in H as [(Hcap & -> & _)|(Hcap & st' & o & os & Hp & Hl & ->)]; [lia|].
    destruct (IH _ _ _ Hl Hroom) as [Hlen Happ].
    split; [simpl; rewrite Hlen; reflexivity|].
    change ((r :: pre) ++ rest)%list with (r :: (pre ++ rest))%list.
    cbn [loop]. apply Z.leb_gt in Hcap. rewrite Hcap, Hp. cbn [mbind result_bind].
    rewrite Happ. replace (idx + length (r :: pre))%nat with (S idx + length pre)%nat
      by (simpl; lia).
    destruct (run_loop st1 (S idx + length pre) rest) as [[a b]|e]; reflexivity.
Qed.


(** What the body of the loop does with a scored candidate. *)
Lemma process_scored (st : State) (idx : nat) (r : SearchResult) (a : Scored)
    (st' : State) (o : Outcome) :
  passes_gates cfg st r →
  score_candidate imports w order cfg r = Ok (Some a) →
  run_process st idx r = Ok (st', o) →
  (sc_score a < min_score cfg ∧ o = BelowMinimum (sc_score a))
  ∨ (min_score cfg ≤ sc_score a
     ∧ ∃ l, o = Accepted l
            ∧ Company l = title r ∧ Website l = link r
            ∧ Email l = sc_email a ∧ Phone l = sc_phone a
            ∧ Lead_Score l = sc_score a).
Proof.
  intros (Hne & Hfresh & Hblk & Hex). unfold score_candidate, process.
  destruct (Str.truthy (get_domain (link r))) eqn:Hd;
    [|apply truthy_false in Hd; contradiction].
  simpl negb; cbn [orb].
  case_bool_decide; [contradiction|]. rewrite Hblk.
  case_bool_decide; [contradiction|].
  destruct (scrape_website imports w order (link r))
    as [[[[emails phones] page_text] company_size] tech_stack].
  set (valid_email := next_or_empty _ emails).
  set (valid_phone := next_or_empty _ phones).
  destruct (negb (Str.truthy valid_email) && negb (Str.truthy valid_phone));
    [discriminate|].
  match goal with
  | |- context [let '(_, _) := ?x in _] => destruct x as [email_status email_score]
  end.
  destruct (get_linkedin_info w (title r) (location cfg)) as [[linkedin founder]|e];
    [|discriminate].
  cbn [mbind result_bind].
  destruct (score_lead_enhanced _ _ _ _) as [analysis|e]; [|discriminate].
  cbn [mbind result_bind].
  destruct (ai_score_of analysis) as [ai_score|e]; [|discriminate].
  cbn [mbind result_bind]. intros [= <-]. cbn [sc_score sc_email sc_phone].
  match goal with
  | |- context [if ?b then _ else _] => destruct b eqn:Hmin
  end.
  - intros [= <- <-]. left. apply Z.ltb_lt in Hmin. split; [exact Hmin | reflexivity].
  - destruct (generate_email_variations _ _ _ _) as [ev|e]; [|discriminate].
    cbn [mbind result_bind].
    destruct (generate_follow_up_sequence _ _ _) as [fu|e]; [|discriminate].
    cbn [mbind result_bind].
    destruct (generate_multichannel_outreach _ _ _ _) as [mc|e]; [|discriminate].
    cbn [mbind result_bind].
    intros [= <- <-]. right. apply Z.ltb_ge in Hmin. split; [exact Hmin|].
    eexists. split; [reflexivity|]. repeat split.
Qed.

End Loop.

Lemma generate_leads_inv (imports : list string) (w : World) (order : SetOrder)
    (cfg : Config) (ls : list Lead) (trace : list Outcome) :
  generate_leads imports w order cfg = Ok (ls, trace) →
  ∃ results st,
    search_businesses w (industry cfg) (location cfg) (search_pages cfg) = Ok results
    ∧ loop imports w order cfg {| leads := []; seen_domains := ∅ |} O results
        = Ok (st, trace)
    ∧ ls = leads st.
Proof.
  unfold generate_leads. intros H.
  destruct (search_businesses _ _ _ _) as [results|e]; [|discriminate].
  cbn [mbind result_bind] in H.
  destruct (loop _ _ _ _ _ _ results) as [[st os]|e] eqn:Hl; [|discriminate].
  cbn [mbind result_bind] in H. injection H as <- <-. eauto.
Qed.

(** Without the import no candidate is accepted. *)
Lemma unbound_none_accepted (imports : list string) (w : World) (order : SetOrder)
    (cfg : Config) (rs : list SearchResult) (st st_end : State) (idx : nat)
    (trace : list Outcome) (j : nat) (l : Lead) :
  mem "BeautifulSoup" imports = false →
  loop imports w order cfg st idx rs = Ok (st_end, trace) →
  trace !! j ≠ Some (Accepted l).
Proof.
  intros Hm H Hj.
  destruct (loop_lookup _ _ _ _ _ _ _ _ _ _ _ H Hj) as (r & a & b & _ & Hp & _).
  destruct (process_unbound imports w order cfg a (idx + j) r Hm)
    as (st' & o & Hp' & _ & Ho).
  rewrite Hp in Hp'. injection Hp' as _ <-.
  destruct Ho as [Ho|[Ho|[Ho|[Ho|Ho]]]]; discriminate.
Qed.

(** ** Runs with two hits of one domain *)

(** C4.  Take a candidate that the loop reaches with room for a lead and
    that passes the gates on its domain, and let the body of the loop compute
    a lead score for it.  In a run that ends, every lead returned has a score
    of at least the minimum; if the score of the candidate is below the
    minimum, no lead of the output has its domain; if the score is the
    minimum or more, the output holds the lead of the candidate, with its
    title, URL, contacts and score, right after the leads made before. *)
Theorem min_score_filter (imports : list string) (w : World) (order : SetOrder)
    (cfg : Config) (pre post : list SearchResult) (r : SearchResult)
    (ls : list Lead) (trace : list Outcome)
    (st : State) (seen : list Outcome) (a : Scored) :
  search_businesses w (industry cfg) (location cfg) (search_pages cfg)
    = Ok (pre ++ r :: post)%list →
  generate_leads imports w order cfg = Ok (ls, trace) →
  loop imports w order cfg initial O pre = Ok (st, seen) →
  Z.of_nat (length (leads st)) < max_leads cfg →
  passes_gates cfg st r →
  score_candidate imports w order cfg r = Ok (Some a) →
  (∀ l, l ∈ ls → min_score cfg ≤ Lead_Score l)
  ∧ (sc_score a < min_score cfg →
     ∀ l, l ∈ ls → lead_domain l ≠ get_domain (link r))
  ∧ (min_score cfg ≤ sc_score a →
     ∃ l, ls !! length (leads st) = Some l
          ∧ Company l = title r ∧ Website l = link r
          ∧ Email l = sc_email a ∧ Phone l = sc_phone a
          ∧ Lead_Score l = sc_score a).
Proof.
  intros Hs Hg Hpre Hroom Hgates Hsc.
  apply generate_leads_inv in Hg as (results' & st_end & Hs' & Hl & ->).
  rewrite Hs in Hs'. injection Hs' as <-.
  split.
  { intros l Hin. rewrite (loop_leads _ _ _ _ _ _ _ _ _ Hl) in Hin. simpl in Hin.
    apply accepted_elem in Hin as [j Hj].
    destruct (loop_lookup _ _ _ _ _ _ _ _ _ _ _ Hl Hj) as (r' & b & b' & _ & Hp & _).
    apply process_spec in Hp. unfold step_spec in Hp. tauto. }
  destruct (loop_app imports w order cfg pre (r :: post) _ _ _ _ Hpre Hroom) as [_ Happ].
  unfold initial in Happ. rewrite Happ in Hl.
  destruct (loop imports w order cfg st (0 + length pre) (r :: post))
    as [[st2 os]|e] eqn:Hrest; [|discriminate].
  cbn [mbind result_bind] in Hl. injection Hl as <- <-.
  apply loop_cons in Hrest as [(Hcap & _)|(_ & st' & o & os' & Hp & Hl' & ->)]; [lia|].
  pose proof (process_scored _ _ _ _ _ _ _ _ _ _ Hgates Hsc Hp) as Hcase.
  apply process_spec in Hp. unfold step_spec in Hp.
  destruct (loop_extends _ _ _ _ _ _ _ _ _ Hpre) as [_ (m0 & E0 & _ & D0)].
  destruct (loop_extends _ _ _ _ _ _ _ _ _ Hl') as [_ (m1 & E1 & _ & D1)].
  destruct Hgates as (_ & Hfresh & _).
  split.
  - intros Hlt l Hin. destruct Hcase as [[_ ->]|[Hge _]]; [|lia].
    destruct Hp as (El & Es & _).
    rewrite E1, El, E0 in Hin. simpl in Hin.
    apply elem_of_app in Hin as [Hin|Hin].
    + destruct (D0 l Hin) as [_ Hseen]. intros E. rewrite E in Hseen. contradiction.
    + destruct (D1 l Hin) as [Hout _]. intros E. apply Hout. rewrite Es, E. set_solver.
  - intros Hge. destruct Hcase as [[Hlt _]|(_ & l & -> & Hc & Hw & He & Hph & Hscore)]; [lia|].
    destruct Hp as (El & _).
    exists l. split; [|auto].
    rewrite E1, El, <- List.app_assoc.
    rewrite lookup_app_r by lia. rewrite Nat.sub_diag. reflexivity.
Qed.

Lemma min_score_filter_witness :
  (∀ l, l ∈ [sweet_crumbs_lead] → min_score twin_cfg ≤ Lead_Score l)
  ∧ (5 < min_score twin_cfg →
     ∀ l, l ∈ [sweet_crumbs_lead] → lead_domain l ≠ get_domain (link sweet_crumbs))
  ∧ (min_score twin_cfg ≤ 5 →
     ∃ l, [sweet_crumbs_lead] !! 0%nat = Some l
          ∧ Company l = "Sweet Crumbs" ∧ Website l = "https://sweetcrumbs.com"
          ∧ Email l = "contact@sweetcrumbs.com" ∧ Phone l = ""
          ∧ Lead_Score l = 5).
Proof.
  apply (min_score_filter ("BeautifulSoup" :: app_imports) twin_world remove_dups twin_cfg
           [] [sweet_crumbs_menu] sweet_crumbs
           [sweet_crumbs_lead] [Accepted sweet_crumbs_lead; Duplicate]
           initial []
           {| sc_email := "contact@sweetcrumbs.com"; sc_phone := ""; sc_score := 5 |}).
  - reflexivity.
  - vm_compute. reflexivity.
  - reflexivity.
  - vm_compute. reflexivity.
  - unfold passes_gates. split; [vm_compute; discriminate|].
    split; [simpl; set_solver|]. split; [vm_compute; reflexivity|].
    intros H. unfold excluded in H. simpl in H. set_solver.
  - vm_compute. reflexivity.
Defined.




(** C10.  The domain of a candidate is recorded before its site is scraped.
    So when a candidate is turned away at the contact gate, a later candidate
    with the same domain is skipped as a duplicate, and the run returns no
    lead for that domain.  (The later candidate is not looked at only when
    the loop has left at its cap of leads, which needs [BeautifulSoup] to be
    bound.) *)
Theorem seen_before_contact_gate (imports : list string) (w : World) (order : SetOrder)
    (cfg : Config) (results : list SearchResult) (ls : list Lead) (trace : list Outcome) :
  search_businesses w (industry cfg) (location cfg) (search_pages cfg) = Ok results →
  generate_leads imports w order cfg = Ok (ls, trace) →
  ∀ i j ri rj,
    (i < j)%nat → results !! i = Some ri → results !! j = Some rj →
    get_domain (link ri) = get_domain (link rj) →
    trace !! i = Some NoContact →
    (trace !! j = Some Duplicate
     ∨ (trace !! j = None ∧ mem "BeautifulSoup" imports = true
        ∧ max_leads cfg ≤ Z.of_nat (length ls)))
    ∧ ∀ l, l ∈ ls → lead_domain l ≠ get_domain (link ri).
Proof.
  intros Hs Hg. apply generate_leads_inv in Hg as (results' & st & Hs' & Hl & ->).
  rewrite Hs in Hs'. injection Hs' as <-.
  intros i j ri rj Hij Hri Hrj Hd Hi. split.
  2:{ eapply recorded_without_lead; eauto. }
  destruct (trace !! j) as [oj|] eqn:Hj.
  - left. f_equal.
    destruct (loop_lookup2 _ _ _ _ _ _ _ _ _ _ _ _ _ Hl Hij Hi Hj)
      as (ri' & rj' & a & a' & b & b' & Hri' & Hrj' & Hpi & Hpj & _ & [Hsub _] & _).
    rewrite Hri in Hri'. injection Hri' as <-.
    rewrite Hrj in Hrj'. injection Hrj' as <-.
    apply process_spec in Hpi. apply process_spec in Hpj.
    unfold step_spec in Hpi, Hpj. rewrite <- Hd in Hpj.
    destruct Hpi as (_ & Es & Hne & _).
    assert (Hin : get_domain (link ri) ∈ seen_domains b) by set_solver.
    destruct oj; try reflexivity; exfalso.
    + destruct Hpj as [_ E]. contradiction.
    + destruct Hpj as (_ & _ & Hout). contradiction.
    + destruct Hpj as (_ & _ & Hout & _). contradiction.
    + destruct Hpj as (_ & _ & _ & Hout & _). contradiction.
    + destruct Hpj as (_ & _ & _ & Hout & _). contradiction.
    + destruct Hpj as (_ & _ & _ & Hout & _). contradiction.
  - right. split; [reflexivity|].
    destruct (loop_trace_length _ _ _ _ _ _ _ _ _ Hl) as [_ Hcap].
    apply lookup_ge_None in Hj. apply lookup_lt_Some in Hrj.
    assert (Hc : max_leads cfg ≤ Z.of_nat (length (leads st))) by (apply Hcap; lia).
    split; [|exact Hc].
    destruct (mem "BeautifulSoup" imports) eqn:Hm; [reflexivity|exfalso].
    destruct (loop_lookup _ _ _ _ _ _ _ _ _ _ _ Hl Hi) as (r & a & b & _ & _ & _ & _ & Hlt).
    pose proof (loop_leads _ _ _ _ _ _ _ _ _ Hl) as Hacc. simpl in Hacc.
    assert (Hnil : accepted trace = []).
    { destruct (accepted trace) as [|l t] eqn:E; [reflexivity|exfalso].
      assert (Hin : l ∈ accepted trace) by (rewrite E; left).
      apply accepted_elem in Hin as [k Hk].
      exact (unbound_none_accepted _ _ _ _ _ _ _ _ _ _ _ Hm Hl Hk). }
    rewrite Hacc, Hnil in Hc. simpl in Hc. lia.
Qed.

Lemma seen_before_contact_gate_witness :
  ([NoContact; Duplicate] !! 1%nat = Some Duplicate
   ∨ ([NoContact; Duplicate] !! 1%nat = None
      ∧ mem "BeautifulSoup" app_imports = true
      ∧ max_leads twin_cfg ≤ Z.of_nat (length (@nil Lead))))
  ∧ ∀ l, l ∈ @nil Lead → lead_domain l ≠ get_domain (link sweet_crumbs).
Proof.
  assert (Hs : search_businesses twin_world (industry twin_cfg) (location twin_cfg)
                 (search_pages twin_cfg) = Ok [sweet_crumbs; sweet_crumbs_menu])
    by reflexivity.
  assert (Hg : generate_leads app_imports twin_world id twin_cfg
               = Ok ([], [NoContact; Duplicate]))
    by (vm_compute; reflexivity).
  apply (seen_before_contact_gate _ _ _ _ _ _ _ Hs Hg 0%nat 1%nat
           sweet_crumbs sweet_crumbs_menu);
    [lia | reflexivity | reflexivity | reflexivity | reflexivity].
Defined.

(** ** Determinism *)





(** a run is fixed by what each pass through the body of the loop does *)
Lemma generate_leads_ext (imports : list string) (w : World) (order1 order2 : SetOrder)
    (cfg : Config) :
  (∀ st idx r, process imports w order1 cfg st idx r
               = process imports w order2 cfg st idx r) →
  generate_leads imports w order1 cfg = generate_leads imports w order2 cfg.
Proof.
  intros Hp.
  assert (Hl : ∀ rs st idx, loop imports w order1 cfg st idx rs
                            = loop imports w order2 cfg st idx rs).
  { induction rs as [|r rs IH]; intros st idx; [reflexivity|].
    simpl. rewrite Hp. destruct (max_leads cfg <=? _); [reflexivity|].
    destruct (process _ _ _ _ _ _ _) as [[st' o]|e]; [|reflexivity].
    cbn [mbind result_bind]. rewrite IH. reflexivity. }
  unfold generate_leads.
  destruct (search_businesses _ _ _ _) as [results|e]; [|reflexivity].
  cbn [mbind result_bind]. rewrite Hl. reflexivity.
Qed.

(** In app.py as it stands the order in which a set of strings is iterated
    has no part in a run. *)
Lemma order_unused_as_written (w : World) (cfg : Config) (order1 order2 : SetOrder) :
  generate_leads app_imports w order1 cfg = generate_leads app_imports w order2 cfg.
Proof.
  apply generate_leads_ext. intros. unfold process.
  rewrite !scrape_website_app. reflexivity.
Qed.




(** * Further properties of the helpers and fetchers *)

(** ** Company size and technologies *)

Lemma search_head {A : Type} (m : string → option A) (s : string) (x : A) :
  m s = Some x → Re.search m s = Some x.
Proof. intros H. destruct s; simpl; rewrite H; reflexivity. Qed.

Lemma lower_app (a b : string) : Str.lower (a +:+ b) = Str.lower a +:+ Str.lower b.
Proof.
  induction a as [|c a IH]; [reflexivity|].
  rewrite str_app_cons. simpl. rewrite IH. reflexivity.
Qed.

Lemma lower_digits (ds : string) :
  Str.forallb Str.is_digit ds = true → Str.lower ds = ds.
Proof.
  induction ds as [|c ds IH]; [reflexivity|]. simpl. intros H.
  apply andb_true_iff in H as [Hc H]. rewrite (IH H). f_equal.
  unfold Str.lower_char, Str.is_upper, Str.is_digit, Str.in_range in *.
  apply andb_true_iff in Hc as [H1 H2]. apply Z.leb_le in H1. apply Z.leb_le in H2.
  repeat match goal with
  | |- context [?a <=? ?b] => destruct (Z.leb_spec a b)
  end; simpl; try reflexivity; lia.
Qed.

Lemma employees_at_hit (ds t : string) :
  Str.forallb Str.is_digit ds = true → ds ≠ "" →
  Re.employees_at (ds +:+ String " " ("employees" +:+ t)) = Some ds.
Proof.
  intros Hds Hne. unfold Re.employees_at. rewrite (span_app _ _ _ Hds).
  replace (Str.span Str.is_digit (String " " ("employees" +:+ t)))
    with ("", String " " ("employees" +:+ t)) by reflexivity.
  cbn [fst snd]. rewrite str_app_nil_r.
  destruct ds as [|d ds]; [congruence|]. cbn [Re.nonempty Str.truthy].
  cbv beta iota zeta.
  replace (snd (Str.span Str.is_space (String " " ("employees" +:+ t))))
    with ("employees" +:+ t).
  - rewrite startswith_app. reflexivity.
  - change ("employees" +:+ t) with (String "e" ("mployees" +:+ t)). reflexivity.
Qed.

(** [extract_company_size] answers one of seven labels, or raises
    [ValueError] when the count in front of "employees" has more than 4300
    digits. *)
Theorem extract_company_size_labels (text : string) :
  match extract_company_size text with
  | Ok label =>
      In label
         ["Enterprise (500+)"; "Medium (50-500)"; "Small (1-50)";
          "Enterprise"; "Medium"; "Small"; "Unknown"]
  | Raise e =>
      e = ValueError
      ∧ ∃ ds, Re.search Re.employees_at (Str.lower text) = Some ds
              ∧ 4300 < Z.of_nat (String.length ds)
  end.
Proof.
  unfold extract_company_size.
  destruct (Re.search Re.employees_at (Str.lower text)) as [g|].
  - unfold Str.int, Str.int_max_str_digits.
    destruct (4300 <? Z.of_nat (String.length g)) eqn:Hlen; cbn [mbind result_bind].
    + apply Z.ltb_lt in Hlen. split; [reflexivity|]. exists g. auto.
    + destruct (500 <? Str.int_acc 0 g); [simpl; auto|].
      destruct (50 <? Str.int_acc 0 g); simpl; auto.
  - unfold size_indicators. cbn [List.find].
    repeat match goal with
    | |- context [any_in ?k ?t] => destruct (any_in k t)
    end; vm_compute; auto 10.
Qed.

(** A count in front of the word "employees" decides the label, whatever
    follows and whatever keywords the text holds: above 500 it is the
    enterprise label, above 50 the medium one, and otherwise, zero included,
    the small one; a count of more than 4300 digits raises [ValueError]. *)
Theorem extract_company_size_count (ds rest : string) :
  Str.forallb Str.is_digit ds = true →
  ds ≠ "" →
  extract_company_size (ds +:+ " employees" +:+ rest) =
    if Z.of_nat (String.length ds) <=? 4300
    then Ok (if 500 <? decimal_value ds then "Enterprise (500+)"
             else if 50 <? decimal_value ds then "Medium (50-500)"
             else "Small (1-50)")
    else Raise ValueError.
Proof.
  intros Hds Hne. unfold extract_company_size.
  rewrite !lower_app, (lower_digits ds Hds).
  change (Str.lower " employees" +:+ Str.lower rest)
    with (String " " ("employees" +:+ Str.lower rest)).
  rewrite (search_head _ _ _ (employees_at_hit ds (Str.lower rest) Hds Hne)).
  rewrite (int_digits ds Hds). unfold int_of_digits.
  destruct (Z.of_nat (String.length ds) <=? 4300); cbn [mbind result_bind]; [|reflexivity].
  destruct (500 <? decimal_value ds); [reflexivity|].
  destruct (50 <? decimal_value ds); reflexivity.
Qed.

Lemma extract_company_size_count_witness :
  Str.forallb Str.is_digit "500" = true ∧ "500" ≠ ""
  ∧ extract_company_size ("500" +:+ " employees" +:+ " worldwide") = Ok "Medium (50-500)".
Proof.
  split; [reflexivity|]. split; [discriminate|].
  apply (extract_company_size_count "500" " worldwide"); [reflexivity | discriminate].
Defined.

Lemma join_cons_head (sep : string) (c : ascii) (x : string) (xs : list string) :
  ∃ t, Str.join sep (String c x :: xs) = String c t.
Proof. destruct xs; simpl; eauto. Qed.

(** [detect_technologies] answers "None detected" exactly when no keyword of
    the table occurs in the lower-cased text. *)
Theorem detect_technologies_none (text : string) :
  detect_technologies text = "None detected"
  ↔ ∀ tech keywords, In (tech, keywords) technologies →
      any_in keywords (Str.lower text) = false.
Proof.
  unfold detect_technologies.
  set (hit := fun '((_, keywords) : string * list string) =>
                any_in keywords (Str.lower text)).
  destruct (List.filter hit technologies) as [|[tech kws] l] eqn:E; simpl List.map; split.
  - intros _ tech kws Hin.
    destruct (any_in kws (Str.lower text)) eqn:Hk; [|reflexivity].
    assert (Hf : In (tech, kws) (List.filter hit technologies))
      by (apply filter_In; split; [exact Hin | exact Hk]).
    rewrite E in Hf. destruct Hf.
  - reflexivity.
  - intros Heq. exfalso.
    assert (Hin : In (tech, kws) technologies).
    { assert (Hf : In (tech, kws) (List.filter hit technologies)) by (rewrite E; left; reflexivity).
      apply filter_In in Hf. tauto. }
    unfold technologies in Hin. simpl in Hin.
    repeat destruct Hin as [Hin|Hin]; try contradiction;
      injection Hin as <- <-;
      match type of Heq with
      | Str.join _ (String ?c ?x :: ?xs) = _ =>
          destruct (join_cons_head ", " c x xs) as [t Ht]; rewrite Ht in Heq
      end; discriminate.
  - intros Hall. exfalso.
    assert (Hf : In (tech, kws) (List.filter hit technologies)) by (rewrite E; left; reflexivity).
    apply filter_In in Hf as [Hin Hk]. simpl in Hk.
    rewrite (Hall tech kws Hin) in Hk. discriminate.
Qed.

(** ** Buying signals, social links, search pages *)

Definition signals_query (company : string) : SerpParams :=
  {| q := dq +:+ company +:+ dq +:+ " hiring OR funding OR expansion";
     num := 5; start := None |}.

Definition social_query (company : string) : SerpParams :=
  {| q := dq +:+ company +:+ dq
          +:+ " site:linkedin.com OR site:twitter.com OR site:facebook.com";
     num := 5; start := None |}.

Definition mentions (word : string) (r : SearchResult) : bool :=
  Str.contains word (Str.lower (snippet r)) || Str.contains word (Str.lower (title r)).

Lemma signals_of_nil (r : SearchResult) :
  signals_of r = []
  ↔ mentions "hiring" r = false ∧ mentions "funding" r = false
    ∧ mentions "expansion" r = false.
Proof.
  unfold signals_of, mentions.
  destruct (_ || _), (_ || _), (_ || _); simpl; split;
    try discriminate; try tauto; intros (? & ? & ?); discriminate.
Qed.

Lemma signals_of_labels (r : SearchResult) (x : string) :
  In x (signals_of r) → ∃ c t, x = String c t ∧ c ≠ "N"%char.
Proof.
  unfold signals_of.
  destruct (_ || _), (_ || _), (_ || _); simpl; intros H;
    repeat destruct H as [H|H]; try contradiction; subst x;
    eexists _, _; (split; [reflexivity | discriminate]).
Qed.

(** [check_buying_signals] answers "None" exactly when the request fails or
    no hit mentions hiring, funding or expansion in its title or snippet, in
    any case of the letters; so the score counts a buying signal exactly when
    some hit mentions one. *)
Theorem check_buying_signals_none (w : World) (company location : string) :
  check_buying_signals w company location = "None"
  ↔ (∃ e, serpapi w (signals_query company) = Raise e)
    ∨ (∃ rs, serpapi w (signals_query company) = Ok rs
             ∧ ∀ r, In r rs →
                 mentions "hiring" r = false ∧ mentions "funding" r = false
                 ∧ mentions "expansion" r = false).
Proof.
  unfold check_buying_signals. fold (signals_query company).
  destruct (serpapi w (signals_query company)) as [rs|e]; cbn [mbind result_bind try_except].
  2:{ split; [eauto | reflexivity]. }
  destruct (flat_map signals_of rs) as [|x xs] eqn:E; split.
  - intros _. right. exists rs. split; [reflexivity|]. intros r Hr.
    apply signals_of_nil. destruct (signals_of r) as [|y ys] eqn:Er; [reflexivity|].
    assert (Hin : In y (flat_map signals_of rs)).
    { apply in_flat_map. exists r. split; [exact Hr | rewrite Er; left; reflexivity]. }
    rewrite E in Hin. destruct Hin.
  - reflexivity.
  - intros Heq. exfalso.
    assert (Hin : In x (flat_map signals_of rs)) by (rewrite E; left; reflexivity).
    apply in_flat_map in Hin as (r & _ & Hx).
    apply signals_of_labels in Hx as (c & t & -> & Hc).
    destruct (join_cons_head ", " c t xs) as [u Hu]. rewrite Hu in Heq.
    injection Heq as Hc' _. contradiction.
  - intros [[e He]|(rs' & [= <-] & Hall)]; [discriminate|]. exfalso.
    assert (Hin : In x (flat_map signals_of rs)) by (rewrite E; left; reflexivity).
    apply in_flat_map in Hin as (r & Hr & Hx).
    apply Hall, signals_of_nil in Hr. rewrite Hr in Hx. destruct Hx.
Qed.

Lemma contains_truthy (sub s : string) :
  Str.truthy sub = true → Str.contains sub s = true → Str.truthy s = true.
Proof. destruct sub; [discriminate|]. destruct s; [discriminate | reflexivity]. Qed.

Lemma social_LinkedIn_kept (rs : list SearchResult) (social : Social) :
  Str.truthy (social_LinkedIn social) = true →
  social_LinkedIn (fold_left social_step rs social) = social_LinkedIn social.
Proof.
  revert social. induction rs as [|r rs IH]; intros social H; [reflexivity|].
  cbn [fold_left]. rewrite IH.
  - unfold social_step. rewrite H. rewrite andb_false_r.
    repeat match goal with |- context [if ?b then _ else _] => destruct b end; reflexivity.
  - unfold social_step. rewrite H. rewrite andb_false_r.
    repeat match goal with |- context [if ?b then _ else _] => destruct b end; exact H.
Qed.

(** [get_social_presence] keeps, for LinkedIn, the first link that holds
    "linkedin.com/company": later hits never replace it. *)
Theorem get_social_presence_first_linkedin (w : World) (company : string)
    (rs : list SearchResult) :
  serpapi w (social_query company) = Ok rs →
  social_LinkedIn (get_social_presence w company)
    = default "" (link <$> List.find has_company_page rs).
Proof.
  intros Hs. unfold get_social_presence. fold (social_query company). rewrite Hs.
  cbn [mbind result_bind try_except].
  set (s0 := {| social_LinkedIn := ""; social_Twitter := ""; social_Facebook := "" |}).
  assert (H : ∀ social, social_LinkedIn social = "" →
            social_LinkedIn (fold_left social_step rs social)
              = default "" (link <$> List.find has_company_page rs)).
  { clear Hs. induction rs as [|r rs' IH]; intros social H0; [exact H0|].
    cbn [fold_left List.find]. unfold has_company_page at 1.
    destruct (Str.contains "linkedin.com/company" (link r)) eqn:Hc.
    - assert (Ht : Str.truthy (link r) = true)
        by exact (contains_truthy "linkedin.com/company" _ eq_refl Hc).
      assert (Hstep : social_step social r
                = {| social_LinkedIn := link r; social_Twitter := social_Twitter social;
                     social_Facebook := social_Facebook social |})
        by (unfold social_step; rewrite Hc, H0; reflexivity).
      rewrite Hstep, social_LinkedIn_kept by exact Ht. reflexivity.
    - apply IH. unfold social_step. rewrite Hc. simpl.
      repeat match goal with |- context [if ?b then _ else _] => destruct b end;
        exact H0. }
  apply H. reflexivity.
Qed.

Lemma get_social_presence_first_linkedin_witness :
  social_LinkedIn (get_social_presence acme_world "Acme")
    = "https://www.linkedin.com/company/acme-bakery".
Proof.
  exact (get_social_presence_first_linkedin acme_world "Acme" acme_hits eq_refl).
Defined.

(** [get_linkedin_info], on the same hits, keeps the last link that holds
    "linkedin.com/company" and the last title that names a founder, CEO or
    owner. *)
Theorem get_linkedin_info_last_match (w : World) (company location : string)
    (rs : list SearchResult) :
  serpapi w {| q := dq +:+ company +:+ dq +:+ " " +:+ location +:+ " LinkedIn";
               num := 5; start := None |} = Ok rs →
  get_linkedin_info w company location =
    Ok (default "" (link <$> last (List.filter has_company_page rs)),
        default "" (title <$> last (List.filter names_founder rs))).
Proof.
  intros Hs. unfold get_linkedin_info. rewrite Hs. cbn [mbind result_bind].
  f_equal. unfold linkedin_of.
  assert (H : ∀ l a b,
    fold_left linkedin_step l (a, b) =
      (default a (link <$> last (List.filter has_company_page l)),
       default b (title <$> last (List.filter names_founder l)))).
  { induction l as [|r l IH]; intros a b; [reflexivity|].
    cbn [fold_left List.filter].
    replace (linkedin_step (a, b) r)
      with (if has_company_page r then link r else a,
            if names_founder r then title r else b) by reflexivity.
    rewrite IH.
    destruct (has_company_page r), (names_founder r);
      rewrite ?last_cons;
      destruct (last (List.filter has_company_page l)),
               (last (List.filter names_founder l)); reflexivity. }
  apply H.
Qed.

Lemma get_linkedin_info_last_match_witness :
  get_linkedin_info acme_world "Acme" "Austin" =
    Ok ("https://www.linkedin.com/company/acme-logistics",
        "John Doe - Owner at Acme Logistics").
Proof.
  exact (get_linkedin_info_last_match acme_world "Acme" "Austin" acme_hits eq_refl).
Defined.

Definition page_query (industry location : string) (page : nat) : SerpParams :=
  {| q := industry +:+ " in " +:+ location; num := 10;
     start := Some (Z.of_nat page * 10) |}.

Lemma search_pages_from_ok (w : World) (industry location : string)
    (hits : nat → list SearchResult) (pages first : nat) :
  (∀ i, (first ≤ i < first + pages)%nat →
        serpapi w (page_query industry location i) = Ok (hits i)) →
  search_pages_from w industry location pages (Z.of_nat first)
    = Ok (concat (List.map hits (seq first pages))).
Proof.
  revert first. induction pages as [|n IH]; intros first H; [reflexivity|].
  cbn [search_pages_from seq List.map concat].
  change (serpapi w _) with (serpapi w (page_query industry location first)) at 1.
  rewrite (H first) by lia. cbn [mbind result_bind].
  replace (Z.of_nat first + 1) with (Z.of_nat (S first)) by lia.
  rewrite IH; [reflexivity|]. intros i Hi. apply H. lia.
Qed.

(** [search_businesses] asks for the pages at the offsets 0, 10, 20, ... and
    returns their hits in that order; with no page it asks nothing and
    returns the empty list. *)
Theorem search_businesses_pages (w : World) (industry location : string)
    (hits : nat → list SearchResult) (pages : nat) :
  (∀ i, (i < pages)%nat → serpapi w (page_query industry location i) = Ok (hits i)) →
  search_businesses w industry location pages
    = Ok (concat (List.map hits (seq 0 pages))).
Proof.
  intros H. unfold search_businesses.
  apply (search_pages_from_ok w industry location hits pages 0).
  intros i Hi. apply H. lia.
Qed.

Lemma search_businesses_pages_witness :
  search_businesses twin_world "Bakeries" "Austin" 2
    = Ok [sweet_crumbs; sweet_crumbs_menu; sweet_crumbs; sweet_crumbs_menu].
Proof.
  apply (search_businesses_pages twin_world "Bakeries" "Austin"
           (fun _ => [sweet_crumbs; sweet_crumbs_menu]) 2).
  intros i _. reflexivity.
Defined.

Lemma search_pages_from_fails (w : World) (industry location : string)
    (hits : nat → list SearchResult) (e : exn) (pages first k : nat) :
  (first ≤ k < first + pages)%nat →
  (∀ i, (first ≤ i < k)%nat → serpapi w (page_query industry location i) = Ok (hits i)) →
  serpapi w (page_query industry location k) = Raise e →
  search_pages_from w industry location pages (Z.of_nat first) = Raise e.
Proof.
  revert first. induction pages as [|n IH]; intros first Hk Hok He; [lia|].
  cbn [search_pages_from].
  change (serpapi w _) with (serpapi w (page_query industry location first)) at 1.
  destruct (Nat.eq_dec first k) as [->|Hne].
  - rewrite He. reflexivity.
  - rewrite (Hok first) by lia. cbn [mbind result_bind].
    replace (Z.of_nat first + 1) with (Z.of_nat (S first)) by lia.
    rewrite IH; [reflexivity | lia | | exact He]. intros i Hi. apply Hok. lia.
Qed.

(** When the request of one page fails, [search_businesses] raises and the
    hits of the pages before it are lost. *)
Theorem search_businesses_all_or_nothing (w : World) (industry location : string)
    (hits : nat → list SearchResult) (e : exn) (pages k : nat) :
  (k < pages)%nat →
  (∀ i, (i < k)%nat → serpapi w (page_query industry location i) = Ok (hits i)) →
  serpapi w (page_query industry location k) = Raise e →
  search_businesses w industry location pages = Raise e.
Proof.
  intros Hk Hok He. unfold search_businesses.
  apply (search_pages_from_fails w industry location hits e pages 0 k); [lia | | exact He].
  intros i Hi. apply Hok. lia.
Qed.

Definition second_page_down : World := {|
  serpapi := fun p =>
    match start p with
    | Some 0 => Ok [sweet_crumbs]
    | _ => Raise RequestException
    end;
  http_text := fun _ => Raise RequestException;
  hunter := fun _ => Raise RequestException;
  llm_invoke := fun _ => Raise LLMError;
  bs4_get_text := fun html => html;
  now := fun _ => ""
|}.

Lemma search_businesses_all_or_nothing_witness :
  search_businesses second_page_down "Bakeries" "Austin" 3 = Raise RequestException.
Proof.
  apply (search_businesses_all_or_nothing second_page_down "Bakeries" "Austin"
           (fun _ => [sweet_crumbs]) RequestException 3 1).
  - lia.
  - intros i Hi. assert (i = O) as -> by lia. reflexivity.
  - reflexivity.
Defined.

Lemma guarded_fetchers_default_witness :
  check_buying_signals offline_world "Sweet Crumbs" "Austin" = "None"
  ∧ get_social_presence offline_world "Sweet Crumbs"
      = {| social_LinkedIn := ""; social_Twitter := ""; social_Facebook := "" |}
  ∧ verify_email_hunter offline_world twin_cfg "contact@sweetcrumbs.com"
      = ("Not Verified", 0).
Proof.
  apply (guarded_fetchers_default offline_world twin_cfg "Sweet Crumbs" "Austin"
           "contact@sweetcrumbs.com").
  - intros p. exists RequestException. reflexivity.
  - exists RequestException. reflexivity.
Defined.

(** ** Domains *)

Lemma remove_from_clean (old s : string) :
  Str.contains old s = false → Str.remove_from old O s = s.
Proof.
  induction s as [|c s IH]; [reflexivity|]. cbn [Str.contains Str.remove_from].
  intros H. apply orb_false_iff in H as [H1 H2]. rewrite H1, (IH H2). reflexivity.
Qed.

Lemma remove_from_skip (old a s : string) :
  Str.remove_from old (String.length a) (a +:+ s) = Str.remove_from old O s.
Proof.
  induction a as [|c a IH]; [reflexivity|].
  rewrite str_app_cons. exact IH.
Qed.

(** [get_domain] is the empty string when the URL does not parse; it is the
    network location itself when that holds no "www."; and it is the rest of
    the network location after a leading "www." when that rest holds no
    further one. *)
Theorem get_domain_cases (url : string) :
  match Url.netloc url with
  | Raise _ => get_domain url = ""
  | Ok n =>
      (Str.contains "www." n = false → get_domain url = n)
      ∧ (∀ h, n = "www." +:+ h → Str.contains "www." h = false → get_domain url = h)
  end.
Proof.
  unfold get_domain. destruct (Url.netloc url) as [n|e]; [|reflexivity].
  cbn [mbind result_bind try_except]. unfold Str.remove_all. split.
  - apply remove_from_clean.
  - intros h -> Hh.
    change ("www." +:+ h) with (String "w" ("ww." +:+ h)).
    cbn [Str.remove_from].
    change (String "w" ("ww." +:+ h)) with ("www." +:+ h).
    rewrite startswith_app.
    change (Nat.pred (String.length "www.")) with (String.length "ww.").
    rewrite remove_from_skip. apply remove_from_clean, Hh.
Qed.

Lemma lower_char_idem (c : ascii) :
  Str.lower_char (Str.lower_char c) = Str.lower_char c.
Proof. destruct c as [[] [] [] [] [] [] [] []]; vm_compute; reflexivity. Qed.

Lemma lower_idem (s : string) : Str.lower (Str.lower s) = Str.lower s.
Proof.
  induction s as [|c s IH]; [reflexivity|]. simpl. rewrite lower_char_idem, IH. reflexivity.
Qed.

Lemma lower_truthy (s : string) : Str.truthy (Str.lower s) = Str.truthy s.
Proof. destruct s; reflexivity. Qed.

Lemma excluded_elem (cfg : Config) (d : string) :
  d ∈ excluded cfg →
  ∃ line, In line (Str.split (Str.chr 10) (exclude_domains cfg))
          ∧ d = Str.lower (Str.strip line) ∧ d ≠ "".
Proof.
  unfold excluded. rewrite elem_of_list_to_set, list_elem_of_In, in_map_iff.
  intros (line & <- & Hin). apply filter_In in Hin as [Hin Ht].
  exists line. split; [exact Hin|]. split; [reflexivity|].
  intros E. rewrite <- lower_truthy, E in Ht. discriminate.
Qed.

(** The entries of the exclusion set are lower-cased, the domain of a
    candidate is not: a candidate is turned away as excluded only when its
    domain is written without capitals. *)
Theorem exclusion_needs_lowercase_domain (imports : list string) (w : World)
    (order : SetOrder) (cfg : Config) (st st' : State) (idx : nat) (r : SearchResult) :
  process imports w order cfg st idx r = Ok (st', Excluded) →
  Str.lower (get_domain (link r)) = get_domain (link r).
Proof.
  intros H. apply process_spec in H. destruct H as (_ & _ & _ & Hin).
  apply excluded_elem in Hin as (line & _ & -> & _). apply lower_idem.
Qed.

Definition shouting_hit : SearchResult :=
  {| title := "Sweet Crumbs"; link := "https://sweetcrumbs.com/about"; snippet := "" |}.

Definition excluding_cfg : Config := {|
  hunter_api_key := "";
  max_leads := 5;
  min_score := 1;
  search_pages := 1;
  exclude_domains := "  SweetCrumbs.com " +:+ nl +:+ nl +:+ "other.org";
  meeting_link := "";
  industry := "Bakeries";
  location := "Austin"
|}.

Lemma exclusion_needs_lowercase_domain_witness :
  Str.lower (get_domain (link shouting_hit)) = get_domain (link shouting_hit).
Proof.
  apply (exclusion_needs_lowercase_domain app_imports offline_world id excluding_cfg
           {| leads := []; seen_domains := ∅ |} {| leads := []; seen_domains := ∅ |}
           O shouting_hit).
  vm_compute. reflexivity.
Defined.

(** ** The leads of a run *)

Lemma next_or_empty_spec (p : string → bool) (xs : list string) :
  next_or_empty p xs = ""
  ∨ (p (next_or_empty p xs) = true ∧ In (next_or_empty p xs) xs).
Proof.
  unfold next_or_empty. destruct (List.find p xs) as [x|] eqn:E; [|left; reflexivity].
  apply find_some in E as [Hin Hp]. right. split; assumption.
Qed.

(** What holds of a lead, read off the pass of the body that accepted it. *)
Lemma process_accepted (imports : list string) (w : World) (order : SetOrder)
    (cfg : Config) (st st' : State) (idx : nat) (r : SearchResult) (l : Lead) :
  process imports w order cfg st idx r = Ok (st', Accepted l) →
  any_in BLOCKED_DOMAINS (Str.lower (link r)) = false
  ∧ (Email l = "" ∨ py_truthy (is_company_email (Email l) (link r)) = true)
  ∧ (Phone l = "" ∨ is_valid_phone (Phone l) = true)
  ∧ (Str.truthy (Email l) && Str.truthy (hunter_api_key cfg) = false →
     Email_Status l = "Not Verified" ∧ Email_Score l = 0)
  ∧ Meeting_Link l = meeting_link cfg.
Proof.
  unfold process.
  destruct (negb _ || _); [intros [= _ E]; destruct (Str.truthy _); discriminate|].
  destruct (any_in BLOCKED_DOMAINS _) eqn:Hb; [discriminate|].
  case_bool_decide as Hex; [discriminate|].
  destruct (scrape_website imports w order (link r))
    as [[[[emails phones] page_text] company_size] tech_stack].
  pose proof (next_or_empty_spec
    (fun e => py_truthy (is_company_email e (link r))) emails) as Hve.
  pose proof (next_or_empty_spec is_valid_phone phones) as Hvp.
  set (valid_email := next_or_empty _ emails) in *.
  set (valid_phone := next_or_empty _ phones) in *.
  destruct (negb (Str.truthy valid_email) && negb (Str.truthy valid_phone));
    [discriminate|].
  destruct (Str.truthy valid_email && Str.truthy (hunter_api_key cfg)) eqn:Hkey.
  - destruct (verify_email_hunter w cfg valid_email) as [email_status email_score].
    destruct (get_linkedin_info w (title r) (location cfg)) as [[linkedin founder]|e];
      [|discriminate].
    cbn [mbind result_bind].
    destruct (score_lead_enhanced _ _ _ _) as [analysis|e]; [|discriminate].
    cbn [mbind result_bind].
    destruct (ai_score_of analysis) as [ai_score|e] eqn:Hai; [|discriminate].
    cbn [mbind result_bind].
    match goal with |- context [if ?b then _ else _] => destruct b end; [discriminate|].
    destruct (generate_email_variations _ _ _ _) as [ev|e]; [|discriminate].
    cbn [mbind result_bind].
    destruct (generate_follow_up_sequence _ _ _) as [fu|e]; [|discriminate].
    cbn [mbind result_bind].
    destruct (generate_multichannel_outreach _ _ _ _) as [mc|e]; [|discriminate].
    cbn [mbind result_bind]. intros [= _ <-]. cbn.
    split; [reflexivity|]. split; [tauto|]. split; [tauto|]. split; [|reflexivity].
    intros Hf. rewrite Hkey in Hf. discriminate.
  - destruct (get_linkedin_info w (title r) (location cfg)) as [[linkedin founder]|e];
      [|discriminate].
    cbn [mbind result_bind].
    destruct (score_lead_enhanced _ _ _ _) as [analysis|e]; [|discriminate].
    cbn [mbind result_bind].
    destruct (ai_score_of analysis) as [ai_score|e] eqn:Hai; [|discriminate].
    cbn [mbind result_bind].
    match goal with |- context [if ?b then _ else _] => destruct b end; [discriminate|].
    destruct (generate_email_variations _ _ _ _) as [ev|e]; [|discriminate].
    cbn [mbind result_bind].
    destruct (generate_follow_up_sequence _ _ _) as [fu|e]; [|discriminate].
    cbn [mbind result_bind].
    destruct (generate_multichannel_outreach _ _ _ _) as [mc|e]; [|discriminate].
    cbn [mbind result_bind]. intros [= _ <-]. cbn.
    split; [reflexivity|]. split; [tauto|]. split; [tauto|]. split; [|reflexivity].
    intros _. split; reflexivity.
Qed.

(** Every lead of the output was accepted in some pass over a hit of the
    search. *)
Lemma lead_origin (imports : list string) (w : World) (order : SetOrder)
    (cfg : Config) (ls : list Lead) (trace : list Outcome) (l : Lead) :
  generate_leads imports w order cfg = Ok (ls, trace) →
  l ∈ ls →
  ∃ results r st st' idx,
    search_businesses w (industry cfg) (location cfg) (search_pages cfg) = Ok results
    ∧ In r results
    ∧ process imports w order cfg st idx r = Ok (st', Accepted l).
Proof.
  intros Hg Hl. apply generate_leads_inv in Hg as (results & st & Hs & Hloop & ->).
  rewrite (loop_leads _ _ _ _ _ _ _ _ _ Hloop) in Hl. simpl in Hl.
  apply accepted_elem in Hl as [j Hj].
  destruct (loop_lookup _ _ _ _ _ _ _ _ _ _ _ Hloop Hj) as (r & a & b & Hr & Hp & _).
  exists results, r, a, b, (0 + j)%nat. split; [exact Hs|]. split; [|exact Hp].
  apply list_elem_of_In, list_elem_of_lookup. eauto.
Qed.

Lemma ai_score_of_nonneg (analysis : string) (ai_score : Z) :
  ai_score_of analysis = Ok ai_score → 0 ≤ ai_score.
Proof.
  unfold ai_score_of.
  destruct (Re.search Re.lead_score_at analysis) as [g|] eqn:Hg; [|intros [= <-]; lia].
  apply search_Some in Hg as (pre & t & _ & Ht).
  apply lead_score_at_sound in Ht as (ws & rest & _ & _ & Hd & _).
  unfold Str.int. destruct (_ <? _); [discriminate|]. intros [= <-].
  apply int_acc_nonneg; [lia | exact Hd].
Qed.

Definition twin_run_fixed : result (list Lead * list Outcome) :=
  generate_leads ("BeautifulSoup" :: app_imports) twin_world id twin_cfg.

Lemma twin_run_fixed_eq :
  twin_run_fixed = Ok ([sweet_crumbs_lead], [Accepted sweet_crumbs_lead; Duplicate]).
Proof. vm_compute. reflexivity. Qed.

(** A lead carries only validated contacts: at least one of email and phone
    is there, the email, if any, is a company email for the website of the
    lead, and the phone, if any, has ten to fifteen digits. *)
Theorem leads_have_valid_contacts (imports : list string) (w : World) (order : SetOrder)
    (cfg : Config) (ls : list Lead) (trace : list Outcome) (l : Lead) :
  generate_leads imports w order cfg = Ok (ls, trace) →
  l ∈ ls →
  (Str.truthy (Email l) = true ∨ Str.truthy (Phone l) = true)
  ∧ (Email l = "" ∨ py_truthy (is_company_email (Email l) (Website l)) = true)
  ∧ (Phone l = "" ∨ is_valid_phone (Phone l) = true).
Proof.
  intros Hg Hl.
  destruct (lead_origin _ _ _ _ _ _ _ Hg Hl) as (results & r & a & b & idx & _ & _ & Hp).
  pose proof (process_accepted _ _ _ _ _ _ _ _ _ Hp) as (_ & He & Hph & _).
  apply process_spec in Hp. destruct Hp as (_ & _ & _ & _ & _ & _ & _ & Hw & Hc & _).
  rewrite Hw. auto.
Qed.

Lemma leads_have_valid_contacts_witness :
  (Str.truthy (Email sweet_crumbs_lead) = true ∨ Str.truthy (Phone sweet_crumbs_lead) = true)
  ∧ (Email sweet_crumbs_lead = ""
     ∨ py_truthy (is_company_email (Email sweet_crumbs_lead) (Website sweet_crumbs_lead)) = true)
  ∧ (Phone sweet_crumbs_lead = "" ∨ is_valid_phone (Phone sweet_crumbs_lead) = true).
Proof.
  apply (leads_have_valid_contacts _ _ _ _ _ _ sweet_crumbs_lead twin_run_fixed_eq).
  left.
Defined.

(** No lead comes from a candidate that a gate turns away: the domain of a
    lead is not empty and not in the exclusion set, and its website holds no
    blocked marker. *)
Theorem leads_pass_the_gates (imports : list string) (w : World) (order : SetOrder)
    (cfg : Config) (ls : list Lead) (trace : list Outcome) (l : Lead) :
  generate_leads imports w order cfg = Ok (ls, trace) →
  l ∈ ls →
  lead_domain l ≠ ""
  ∧ (lead_domain l ∉ excluded cfg)
  ∧ any_in BLOCKED_DOMAINS (Str.lower (Website l)) = false.
Proof.
  intros Hg Hl.
  destruct (lead_origin _ _ _ _ _ _ _ Hg Hl) as (results & r & a & b & idx & _ & _ & Hp).
  pose proof (process_accepted _ _ _ _ _ _ _ _ _ Hp) as (Hb & _).
  apply process_spec in Hp. destruct Hp as (_ & _ & Hne & _ & Hex & _ & _ & Hw & _).
  unfold lead_domain. rewrite Hw. auto.
Qed.

Lemma leads_pass_the_gates_witness :
  lead_domain sweet_crumbs_lead ≠ ""
  ∧ (lead_domain sweet_crumbs_lead ∉ excluded twin_cfg)
  ∧ any_in BLOCKED_DOMAINS (Str.lower (Website sweet_crumbs_lead)) = false.
Proof.
  apply (leads_pass_the_gates _ _ _ _ _ _ sweet_crumbs_lead twin_run_fixed_eq).
  left.
Defined.

(** Without a verification key every lead is "Not Verified" with score 0,
    and so is, with a key, every lead that has no email. *)
Theorem leads_unverified_without_key (imports : list string) (w : World) (order : SetOrder)
    (cfg : Config) (ls : list Lead) (trace : list Outcome) (l : Lead) :
  generate_leads imports w order cfg = Ok (ls, trace) →
  l ∈ ls →
  hunter_api_key cfg = "" ∨ Email l = "" →
  Email_Status l = "Not Verified" ∧ Email_Score l = 0.
Proof.
  intros Hg Hl Hk.
  destruct (lead_origin _ _ _ _ _ _ _ Hg Hl) as (results & r & a & b & idx & _ & _ & Hp).
  pose proof (process_accepted _ _ _ _ _ _ _ _ _ Hp) as (_ & _ & _ & Hv & _).
  apply Hv. destruct Hk as [->| ->]; [apply andb_false_r | reflexivity].
Qed.

Lemma leads_unverified_without_key_witness :
  Email_Status sweet_crumbs_lead = "Not Verified" ∧ Email_Score sweet_crumbs_lead = 0.
Proof.
  apply (leads_unverified_without_key _ _ _ _ _ _ sweet_crumbs_lead twin_run_fixed_eq).
  - left.
  - left. reflexivity.
Defined.

(** The score of a lead lies between 2 and 10: a lead has an email or a
    phone, and the score read from the analysis is never negative. *)
Theorem lead_score_bounds (imports : list string) (w : World) (order : SetOrder)
    (cfg : Config) (ls : list Lead) (trace : list Outcome) (l : Lead) :
  generate_leads imports w order cfg = Ok (ls, trace) →
  l ∈ ls →
  2 ≤ Lead_Score l ≤ 10.
Proof.
  intros Hg Hl.
  destruct (lead_origin _ _ _ _ _ _ _ Hg Hl) as (results & r & a & b & idx & _ & _ & Hp).
  apply process_spec in Hp.
  destruct Hp as (_ & _ & _ & _ & _ & _ & _ & _ & Hc & linkedin & ai_score & Hai & ->).
  apply ai_score_of_nonneg in Hai.
  unfold lead_score_of, hybrid_score_of.
  destruct Hc as [-> | ->];
    destruct (Str.truthy _), (negb _), (Str.truthy _);
    cbv beta iota zeta; lia.
Qed.

Lemma lead_score_bounds_witness : 2 ≤ Lead_Score sweet_crumbs_lead ≤ 10.
Proof.
  apply (lead_score_bounds _ _ _ _ _ _ sweet_crumbs_lead twin_run_fixed_eq).
  left.
Defined.

(** ** Cap, order and the run of app.py *)

Lemma step_adds_at_most_one (cfg : Config) (st : State) (r : SearchResult)
    (st' : State) (o : Outcome) :
  step_spec cfg st r st' o →
  (length (leads st') ≤ S (length (leads st)))%nat.
Proof.
  unfold step_spec. destruct o.
  1-4: intros [-> _]; lia.
  1-2: intros [-> _]; lia.
  intros [-> _]. rewrite length_app. simpl. lia.
Qed.

Lemma loop_capped (imports : list string) (w : World) (order : SetOrder) (cfg : Config)
    (rs : list SearchResult) (st : State) (idx : nat) (st_end : State)
    (trace : list Outcome) :
  loop imports w order cfg st idx rs = Ok (st_end, trace) →
  Z.of_nat (length (leads st_end))
    ≤ Z.max (Z.of_nat (length (leads st))) (max_leads cfg).
Proof.
  revert st idx trace. induction rs as [|r rs IH]; intros st idx trace H.
  - injection H as <- <-. lia.
  - apply loop_cons in H as [(_ & -> & _)|(Hcap & st' & o & os & Hp & Hl & _)]; [lia|].
    apply process_spec, step_adds_at_most_one in Hp.
    specialize (IH _ _ _ Hl). lia.
Qed.

(** A run never returns more leads than [max_leads]. *)
Theorem leads_capped (imports : list string) (w : World) (order : SetOrder)
    (cfg : Config) (ls : list Lead) (trace : list Outcome) :
  generate_leads imports w order cfg = Ok (ls, trace) →
  Z.of_nat (length ls) ≤ Z.max 0 (max_leads cfg).
Proof.
  intros Hg. apply generate_leads_inv in Hg as (results & st & _ & Hl & ->).
  exact (loop_capped _ _ _ _ _ _ _ _ _ Hl).
Qed.

Definition capped_cfg : Config := {|
  hunter_api_key := "";
  max_leads := 1;
  min_score := 1;
  search_pages := 1;
  exclude_domains := "";
  meeting_link := "";
  industry := "Bakeries";
  location := "Austin"
|}.

Definition other_bakery : SearchResult :=
  {| title := "Flour Power"; link := "https://flourpower.example/"; snippet := "" |}.

Definition two_bakeries_world : World := {|
  serpapi := fun p =>
    if String.eqb (q p) "Bakeries in Austin"
    then Ok [sweet_crumbs; other_bakery] else Ok [];
  http_text := fun url =>
    if String.eqb url "https://sweetcrumbs.com" then Ok bakery_page
    else Ok "call 512 555 0147 today";
  hunter := fun _ => Raise RequestException;
  llm_invoke := fun _ => Ok "Lead Score: 2";
  bs4_get_text := fun html => html;
  now := fun _ => "2026-01-01 09:00:00"
|}.

Lemma leads_capped_witness :
  ∃ l, generate_leads ("BeautifulSoup" :: app_imports) two_bakeries_world id capped_cfg
         = Ok ([l], [Accepted l])
       ∧ Z.of_nat (length [l]) ≤ Z.max 0 (max_leads capped_cfg).
Proof.
  eexists. split; [vm_compute; reflexivity|].
  eapply (leads_capped ("BeautifulSoup" :: app_imports) two_bakeries_world id capped_cfg).
  vm_compute. reflexivity.
Defined.

Lemma loop_in_order (imports : list string) (w : World) (order : SetOrder) (cfg : Config)
    (rs : list SearchResult) (st : State) (idx : nat) (st_end : State)
    (trace : list Outcome) :
  loop imports w order cfg st idx rs = Ok (st_end, trace) →
  sublist (Website <$> accepted trace) (link <$> rs).
Proof.
  revert st idx trace. induction rs as [|r rs IH]; intros st idx trace H.
  - injection H as <- <-. constructor.
  - apply loop_cons in H as [(_ & _ & ->)|(_ & st' & o & os & Hp & Hl & ->)].
    + apply sublist_nil_l.
    + specialize (IH _ _ _ Hl). apply process_spec in Hp. unfold step_spec in Hp.
      destruct o; simpl; try (apply sublist_cons; exact IH).
      destruct Hp as (_ & _ & _ & _ & _ & _ & _ & Hw & _). rewrite Hw.
      apply sublist_skip. exact IH.
Qed.

(** The leads come in the order of the search: their websites are the links
    of the hits, with some hits left out. *)
Theorem leads_in_search_order (imports : list string) (w : World) (order : SetOrder)
    (cfg : Config) (results : list SearchResult) (ls : list Lead) (trace : list Outcome) :
  search_businesses w (industry cfg) (location cfg) (search_pages cfg) = Ok results →
  generate_leads imports w order cfg = Ok (ls, trace) →
  sublist (Website <$> ls) (link <$> results).
Proof.
  intros Hs Hg. apply generate_leads_inv in Hg as (results' & st & Hs' & Hl & ->).
  rewrite Hs in Hs'. injection Hs' as <-.
  rewrite (loop_leads _ _ _ _ _ _ _ _ _ Hl). simpl.
  exact (loop_in_order _ _ _ _ _ _ _ _ _ Hl).
Qed.

Lemma leads_in_search_order_witness :
  sublist (Website <$> [sweet_crumbs_lead]) (link <$> [sweet_crumbs; sweet_crumbs_menu]).
Proof.
  apply (leads_in_search_order ("BeautifulSoup" :: app_imports) twin_world id twin_cfg
           [sweet_crumbs; sweet_crumbs_menu] [sweet_crumbs_lead]
           [Accepted sweet_crumbs_lead; Duplicate]).
  - reflexivity.
  - exact twin_run_fixed_eq.
Defined.

Definition unscored (o : Outcome) : Prop :=
  o = NoDomain ∨ o = Duplicate ∨ o = Blocked ∨ o = Excluded ∨ o = NoContact.

Lemma loop_unbound (imports : list string) (w : World) (order : SetOrder) (cfg : Config)
    (rs : list SearchResult) (st : State) (idx : nat) :
  mem "BeautifulSoup" imports = false →
  ∃ st_end trace,
    loop imports w order cfg st idx rs = Ok (st_end, trace)
    ∧ leads st_end = leads st
    ∧ Forall unscored trace
    ∧ (Z.of_nat (length (leads st)) < max_leads cfg → length trace = length rs).
Proof.
  intros Hm. revert st idx. induction rs as [|r rs IH]; intros st idx.
  - exists st, []. repeat split; auto.
  - simpl. destruct (max_leads cfg <=? Z.of_nat (length (leads st))) eqn:Hcap.
    + exists st, []. apply Z.leb_le in Hcap. repeat split; auto. lia.
    + destruct (process_unbound imports w order cfg st idx r Hm)
        as (st' & o & -> & El & Ho).
      cbn [mbind result_bind].
      destruct (IH st' (S idx)) as (st_end & os & -> & El' & Hall & Hlen).
      cbn [mbind result_bind]. exists st_end, (o :: os).
      split; [reflexivity|]. split; [congruence|]. split; [constructor; assumption|].
      intros Hlt. simpl. f_equal. apply Hlen. rewrite El. exact Hlt.
Qed.

(** app.py as it stands returns no lead, whatever the services answer: when
    the search succeeds the run ends without an exception, every hit is
    looked at (for a positive [max_leads]) and none gets as far as the
    scoring. *)
Theorem app_returns_no_lead (w : World) (order : SetOrder) (cfg : Config)
    (results : list SearchResult) :
  search_businesses w (industry cfg) (location cfg) (search_pages cfg) = Ok results →
  ∃ trace,
    generate_leads app_imports w order cfg = Ok ([], trace)
    ∧ Forall unscored trace
    ∧ (0 < max_leads cfg → length trace = length results).
Proof.
  intros Hs. unfold generate_leads. rewrite Hs. cbn [mbind result_bind].
  destruct (loop_unbound app_imports w order cfg results
              {| leads := []; seen_domains := ∅ |} O eq_refl)
    as (st_end & trace & -> & El & Hall & Hlen).
  cbn [mbind result_bind]. exists trace. rewrite El. simpl. auto.
Qed.

Lemma app_returns_no_lead_witness :
  ∃ trace,
    generate_leads app_imports two_bakeries_world id capped_cfg = Ok ([], trace)
    ∧ Forall unscored trace
    ∧ (0 < max_leads capped_cfg → length trace = length [sweet_crumbs; other_bakery]).
Proof.
  apply (app_returns_no_lead two_bakeries_world id capped_cfg [sweet_crumbs; other_bakery]).
  reflexivity.
Defined.

(** ** The minimum score at its extremes, and the case of an email *)

Lemma lead_score_of_bounds (valid_email valid_phone buying_signals linkedin : string)
    (ai_score : Z) :
  0 ≤ ai_score →
  Str.truthy valid_email = true ∨ Str.truthy valid_phone = true →
  2 ≤ lead_score_of valid_email valid_phone buying_signals linkedin ai_score ≤ 10.
Proof.
  intros Hai Hc. unfold lead_score_of, hybrid_score_of.
  destruct Hc as [-> | ->];
    destruct (Str.truthy _), (negb _), (Str.truthy _);
    cbv beta iota zeta; lia.
Qed.

Lemma process_below_minimum (imports : list string) (w : World) (order : SetOrder)
    (cfg : Config) (st st' : State) (idx : nat) (r : SearchResult) (s : Z) :
  process imports w order cfg st idx r = Ok (st', BelowMinimum s) → 2 ≤ s ≤ 10.
Proof.
  unfold process.
  destruct (negb _ || _); [intros [= _ E]; destruct (Str.truthy _); discriminate|].
  destruct (any_in BLOCKED_DOMAINS _); [discriminate|].
  case_bool_decide; [discriminate|].
  destruct (scrape_website imports w order (link r))
    as [[[[emails phones] page_text] company_size] tech_stack].
  set (valid_email := next_or_empty _ emails).
  set (valid_phone := next_or_empty _ phones).
  destruct (negb (Str.truthy valid_email) && negb (Str.truthy valid_phone)) eqn:Hgate;
    [discriminate|].
  assert (Hc : Str.truthy valid_email = true ∨ Str.truthy valid_phone = true).
  { destruct (Str.truthy valid_email), (Str.truthy valid_phone); auto; discriminate. }
  match goal with
  | |- context [let '(_, _) := ?x in _] => destruct x as [email_status email_score]
  end.
  destruct (get_linkedin_info w (title r) (location cfg)) as [[linkedin founder]|e];
    [|discriminate].
  cbn [mbind result_bind].
  destruct (score_lead_enhanced _ _ _ _) as [analysis|e]; [|discriminate].
  cbn [mbind result_bind].
  destruct (ai_score_of analysis) as [ai_score|e] eqn:Hai; [|discriminate].
  cbn [mbind result_bind].
  match goal with |- context [if ?b then _ else _] => destruct b end.
  - intros [= _ <-]. apply lead_score_of_bounds; [exact (ai_score_of_nonneg _ _ Hai) | exact Hc].
  - destruct (generate_email_variations _ _ _ _) as [ev|e]; [|discriminate].
    cbn [mbind result_bind].
    destruct (generate_follow_up_sequence _ _ _) as [fu|e]; [|discriminate].
    cbn [mbind result_bind].
    destruct (generate_multichannel_outreach _ _ _ _) as [mc|e]; [|discriminate].
    discriminate.
Qed.

(** A minimum score of at most 2 turns no candidate away, and a minimum above
    10 leaves no lead. *)
Theorem min_score_extremes (imports : list string) (w : World) (order : SetOrder)
    (cfg : Config) (ls : list Lead) (trace : list Outcome) :
  generate_leads imports w order cfg = Ok (ls, trace) →
  (min_score cfg ≤ 2 → ∀ s, ¬ In (BelowMinimum s) trace)
  ∧ (10 < min_score cfg → ls = []).
Proof.
  intros Hg. split.
  - intros Hmin s Hin. apply generate_leads_inv in Hg as (results & st & _ & Hl & _).
    apply list_elem_of_In, list_elem_of_lookup in Hin as [j Hj].
    destruct (loop_lookup _ _ _ _ _ _ _ _ _ _ _ Hl Hj) as (r & a & b & _ & Hp & _).
    pose proof (process_below_minimum _ _ _ _ _ _ _ _ _ Hp) as Hb.
    apply process_spec in Hp. destruct Hp as (_ & _ & _ & _ & _ & Hlt & _). lia.
  - intros Hmin. destruct ls as [|l ls]; [reflexivity|exfalso].
    assert (Hl : l ∈ l :: ls) by left.
    destruct (lead_origin _ _ _ _ _ _ _ Hg Hl) as (results & r & a & b & idx & _ & _ & Hp).
    apply process_spec in Hp.
    destruct Hp as (_ & _ & _ & _ & _ & Hge & _ & _ & Hc & linkedin & ai_score & Hai & Hs).
    pose proof (lead_score_of_bounds (Email l) (Phone l) (Buying_Signals l) linkedin
                  _ (ai_score_of_nonneg _ _ Hai) Hc) as Hb.
    lia.
Qed.

Definition strict_cfg : Config := {|
  hunter_api_key := "";
  max_leads := 5;
  min_score := 11;
  search_pages := 1;
  exclude_domains := "";
  meeting_link := "";
  industry := "Bakeries";
  location := "Austin"
|}.

Lemma min_score_extremes_witness :
  (min_score strict_cfg ≤ 2 → ∀ s, ¬ In (BelowMinimum s) [BelowMinimum 4; BelowMinimum 4])
  ∧ (10 < min_score strict_cfg → @nil Lead = []).
Proof.
  apply (min_score_extremes ("BeautifulSoup" :: app_imports) two_bakeries_world id
           strict_cfg [] [BelowMinimum 4; BelowMinimum 4]).
  vm_compute. reflexivity.
Defined.

Lemma eqb_at_lower (c : ascii) :
  Ascii.eqb (Str.lower_char c) "@" = Ascii.eqb c "@".
Proof. destruct c as [[] [] [] [] [] [] [] []]; vm_compute; reflexivity. Qed.

Lemma split_at_lower (s : string) :
  Str.split "@" (Str.lower s) = List.map Str.lower (Str.split "@" s).
Proof.
  induction s as [|c s IH]; [reflexivity|].
  cbn [Str.lower Str.split]. rewrite eqb_at_lower, IH.
  destruct (Ascii.eqb c "@"); [reflexivity|].
  destruct (Str.split "@" s); reflexivity.
Qed.

Lemma last_map_lower (l : list string) :
  List.last (List.map Str.lower l) "" = Str.lower (List.last l "").
Proof.
  induction l as [|x l IH]; [reflexivity|].
  destruct l as [|y l]; [reflexivity|]. exact IH.
Qed.

Lemma email_domain_lower (email : string) :
  email_domain (Str.lower email) = email_domain email.
Proof.
  unfold email_domain. rewrite split_at_lower, last_map_lower, lower_idem.
  reflexivity.
Qed.

(** [is_company_email] does not look at the case of the email: two emails
    that differ only in the case of their letters get the same answer. *)
Theorem is_company_email_ignores_email_case (email1 email2 website : string) :
  Str.lower email1 = Str.lower email2 →
  is_company_email email1 website = is_company_email email2 website.
Proof.
  intros H. unfold is_company_email.
  rewrite <- (email_domain_lower email1), <- (email_domain_lower email2), H.
  reflexivity.
Qed.

Lemma is_company_email_ignores_email_case_witness :
  is_company_email "Sales@Acme.COM" "https://acme.com"
    = is_company_email "sales@acme.com" "https://acme.com".
Proof.
  apply (is_company_email_ignores_email_case "Sales@Acme.COM" "sales@acme.com").
  reflexivity.
Defined.
